(** * nthRoot: elementwise nth-root over scalars, dense and sparse matrices

    A shallow embedding of [src/function/arithmetic/nthRoot.js] (mathjs):
    the two scalar routines [_nthRoot] (JavaScript numbers) and
    [_bigNthRoot] (BigNumber), and the [typed] dispatch table [nthRoot]
    that routes every pair of operand kinds either to a scalar routine,
    to one of the matrix traversal algorithms, or to a thrown [Error].

    JavaScript numbers are IEEE-754 binary64 values, modelled by the
    standard library's [spec_float] with [prec = 53] and [emax = 1024].
    [Math.pow] is implementation-approximated in ECMAScript and is kept as
    a parameter.  The BigNumber type (decimal.js) is an external
    collaborator and is kept abstract behind the record [BigNumberOps]. *)

From Stdlib Require Import Reals Lra.
From Stdlib Require Import ZArith Lia Bool List String.
From Stdlib Require Import SpecFloat Ascii DecimalString.
Import ListNotations.

Local Open Scope Z_scope.
Set Warnings "-register-all".

(** ** Exceptions and results *)

(** A thrown JavaScript [Error], identified by its message. *)
Inductive exn : Type :=
| Error (msg : string).

(** Outcome of a call: a returned value or a thrown exception. *)
Inductive result (A : Type) : Type :=
| Return (v : A)
| Throw (e : exn).

Arguments Return {A} v.
Arguments Throw {A} e.

Definition bind {A B : Type} (r : result A) (k : A -> result B) : result B :=
  match r with
  | Return v => k v
  | Throw e => Throw e
  end.

Definition rmap {A B : Type} (f : A -> B) (r : result A) : result B :=
  bind r (fun v => Return (f v)).

Notation "x <- r ;; k" := (bind r (fun x => k))
  (at level 61, r at next level, right associativity).

(** The messages the source throws. *)
Definition msg_root_nonzero : string := "Root must be non-zero".
Definition msg_root_odd : string := "Root must be odd when a is negative.".
Definition complexErr : string :=
  String.append "Complex number not supported in function nthRoot. "
                "Use nthRoots instead.".

(** The specification's error kinds, as the source raises them.  The
    source throws a bare [Error] in every case; [InvalidRoot] and
    [NonInvertibleZero] carry the same message. *)
Definition InvalidRoot : exn := Error msg_root_nonzero.
Definition NonInvertibleZero : exn := Error msg_root_nonzero.
Definition InvalidRootParity : exn := Error msg_root_odd.
Definition UnsupportedType : exn := Error complexErr.

(** ** JavaScript numbers *)

Module JS.

Definition prec : Z := 53.
Definition emax : Z := 1024.

Definition number : Type := spec_float.

Definition of_Z (z : Z) : number := binary_normalize prec emax z 0 false.

Definition zero : number := S754_zero false.
Definition neg_zero : number := S754_zero true.
Definition Infinity : number := S754_infinity false.
Definition neg_Infinity : number := S754_infinity true.
Definition NaN : number := S754_nan.
Definition one : number := Eval vm_compute in of_Z 1.
Definition two : number := Eval vm_compute in of_Z 2.

(** [x < y] *)
Definition lt (x y : number) : bool := SFltb x y.
(** [x === y] on numbers *)
Definition strict_eq (x y : number) : bool := SFeqb x y.
(** unary minus *)
Definition neg (x : number) : number := SFopp x.
(** [Math.abs] *)
Definition abs (x : number) : number := SFabs x.
(** [x / y] *)
Definition div (x y : number) : number := SFdiv prec emax x y.
(** the global [isFinite] on a number *)
Definition isFinite (x : number) : bool :=
  match x with
  | S754_zero _ | S754_finite _ _ _ => true
  | S754_infinity _ | S754_nan => false
  end.

(** [n % d] (ECMAScript Number::remainder): the exact remainder of the
    truncating division, with the sign of the dividend. *)
Definition rem (n d : number) : number :=
  match n, d with
  | S754_nan, _ | _, S754_nan => S754_nan
  | S754_infinity _, _ => S754_nan
  | _, S754_zero _ => S754_nan
  | _, S754_infinity _ => n
  | S754_zero _, _ => n
  | S754_finite sn mn en, S754_finite _ md ed =>
      let e := Z.min en ed in
      let N := Zpos mn * 2 ^ (en - e) in
      let D := Zpos md * 2 ^ (ed - e) in
      binary_normalize prec emax (cond_Zopp sn (Z.rem N D)) e sn
  end.

(** A number is well formed when its mantissa and exponent are the
    canonical binary64 ones. *)
Definition valid (x : number) : bool := valid_binary prec emax x.

(** The number is a positive odd integer (exactly). *)
Definition is_odd_integer (x : number) : bool :=
  match x with
  | S754_finite false m e =>
      (e <=? 0) && (Zpos m mod 2 ^ (- e) =? 0) && Z.odd (Zpos m / 2 ^ (- e))
  | _ => false
  end.

End JS.

Import JS.

(** ** The double-precision routine *)

Section ScalarNumber.

(** [Math.pow]: its finite results are implementation-approximated. *)
Variable Math_pow : number -> number -> number.

(** [function _nthRoot (a, root)] *)
Definition _nthRoot (a root : number) : result number :=
  let inv := lt root zero in
  let root := if inv then neg root else root in
  if strict_eq root zero then
    Throw (Error msg_root_nonzero)
  else if lt a zero && negb (strict_eq (rem (abs root) two) one) then
    Throw (Error msg_root_odd)
  else if strict_eq a zero then
    Return (if inv then Infinity else zero)
  else if negb (isFinite a) then
    Return (if inv then zero else a)
  else
    let x := Math_pow (abs a) (div one root) in
    let x := if lt a zero then neg x else x in
    Return (if inv then div one x else x).

End ScalarNumber.

(** ** The BigNumber collaborator *)

(** The arbitrary-precision decimal type is consumed through the methods
    [_bigNthRoot] calls.  [precision] is the static [BigNumber.precision];
    [BigNumber_new] is [new BigNumber(n)] on a number, [BigNumber_parse]
    is [new BigNumber(s)] on a string, and [clone_new p] is the
    constructor of [BigNumber.clone({ precision: p })] on a number. *)
Record BigNumberOps (Big : Type) : Type := {
  precision : nat;
  BigNumber_new : number -> Big;
  BigNumber_parse : string -> Big;
  clone_new : nat -> number -> Big;
  isNegative : Big -> bool;
  isNeg : Big -> bool;
  isZero : Big -> bool;
  big_isFinite : Big -> bool;
  big_neg : Big -> Big;
  big_abs : Big -> Big;
  big_mod : Big -> number -> Big;
  big_equals : Big -> number -> bool;
  big_pow : Big -> Big -> Big;
  big_div : Big -> Big -> Big;
  toPrecision : Big -> nat -> string
}.

Arguments precision {Big} _.
Arguments BigNumber_new {Big} _ _.
Arguments BigNumber_parse {Big} _ _.
Arguments clone_new {Big} _ _ _.
Arguments isNegative {Big} _ _.
Arguments isNeg {Big} _ _.
Arguments isZero {Big} _ _.
Arguments big_isFinite {Big} _ _.
Arguments big_neg {Big} _ _.
Arguments big_abs {Big} _ _.
Arguments big_mod {Big} _ _ _.
Arguments big_equals {Big} _ _ _.
Arguments big_pow {Big} _ _ _.
Arguments big_div {Big} _ _ _.
Arguments toPrecision {Big} _ _ _.

(** ** Data model *)

(** A complex number; the dispatcher only rejects it. *)
Record Complex : Type := { re : number; im : number }.

Section DataModel.

Variable Big : Type.

(** A scalar cell: a number, a BigNumber or a Complex. *)
Inductive scalar : Type :=
| SNum (x : number)
| SBig (b : Big)
| SComplex (z : Complex).

(** A plain (possibly nested) JavaScript array of scalars. *)
Inductive NestedSeq : Type :=
| Leaf (s : scalar)
| Seq (items : list NestedSeq).

(** DenseMatrix: nested data and its size vector. *)
Record DenseMatrix : Type := {
  dense_data : NestedSeq;
  dense_size : list nat
}.

(** SparseMatrix, compressed by column: stored values, their row indices
    and the column pointers; [sparse_size] is (rows, columns). *)
Record SparseMatrix : Type := {
  sparse_values : list scalar;
  sparse_index : list nat;
  sparse_ptr : list nat;
  sparse_size : nat * nat
}.

Inductive Matrix : Type :=
| Dense (m : DenseMatrix)
| Sparse (m : SparseMatrix).

(** A runtime value the dispatcher can receive or return. *)
Inductive value : Type :=
| VScalar (s : scalar)
| VArray (a : NestedSeq)
| VMatrix (m : Matrix).

(** The callback the traversal algorithms apply to pairs of cells. *)
Definition callback : Type := scalar -> scalar -> result scalar.

(** The collaborators of the dispatcher that live outside this file:
    the six traversal algorithms, [matrix], [valueOf], the [density()]
    method of a SparseMatrix and what [typed] does with arguments that
    no listed signature accepts as they are. *)
Record Collaborators : Type := {
  density : SparseMatrix -> number;
  algorithm01 : DenseMatrix -> SparseMatrix -> callback -> bool -> result Matrix;
  algorithm02 : DenseMatrix -> SparseMatrix -> callback -> bool -> result Matrix;
  algorithm06 : SparseMatrix -> SparseMatrix -> callback -> result Matrix;
  algorithm11 : SparseMatrix -> scalar -> callback -> bool -> result Matrix;
  algorithm13 : DenseMatrix -> DenseMatrix -> callback -> result Matrix;
  algorithm14 : DenseMatrix -> scalar -> callback -> bool -> result Matrix;
  matrix : NestedSeq -> Matrix;
  valueOf : Matrix -> NestedSeq;
  typed_scalars : scalar -> scalar -> result scalar;
  typed_other : list value -> result value
}.

End DataModel.

Arguments SNum {Big} x.
Arguments SBig {Big} b.
Arguments SComplex {Big} z.
Arguments Leaf {Big} s.
Arguments Seq {Big} items.
Arguments Build_DenseMatrix {Big} _ _.
Arguments dense_data {Big} _.
Arguments dense_size {Big} _.
Arguments Build_SparseMatrix {Big} _ _ _ _.
Arguments sparse_values {Big} _.
Arguments sparse_index {Big} _.
Arguments sparse_ptr {Big} _.
Arguments sparse_size {Big} _.
Arguments Dense {Big} m.
Arguments Sparse {Big} m.
Arguments VScalar {Big} s.
Arguments VArray {Big} a.
Arguments VMatrix {Big} m.
Arguments algorithm01 {Big} _ _ _ _ _.
Arguments algorithm02 {Big} _ _ _ _ _.
Arguments algorithm06 {Big} _ _ _ _.
Arguments algorithm11 {Big} _ _ _ _ _.
Arguments algorithm13 {Big} _ _ _ _.
Arguments algorithm14 {Big} _ _ _ _ _.
Arguments matrix {Big} _ _.
Arguments valueOf {Big} _ _.
Arguments typed_scalars {Big} _ _ _.
Arguments typed_other {Big} _ _.
Arguments density {Big} _ _.

(** ** The arbitrary-precision routine and the dispatcher *)

Section NthRoot.

Context {Big : Type}.
Variable ops : BigNumberOps Big.
Variable Math_pow : number -> number -> number.
Variable env : Collaborators Big.

(** The root after [if (inv) root = root.neg()]. *)
Definition big_root_abs (root : Big) : Big :=
  if isNegative ops root then big_neg ops root else root.

(** The parity test of [_bigNthRoot]:
    [a.isNegative() && !root.abs().mod(2).equals(1)]. *)
Definition big_parity_fails (a root : Big) : bool :=
  isNegative ops a
  && negb (big_equals ops (big_mod ops (big_abs ops (big_root_abs root)) two) one).

(** [function _bigNthRoot (a, root)]: the zero-base branch returns the
    native number [0], every other successful branch a BigNumber. *)
Definition _bigNthRoot (a root : Big) : result (scalar Big) :=
  let precision := precision ops in
  let Big_new := clone_new ops (precision + 2) in
  let zero_big := BigNumber_new ops zero in
  let one_big := Big_new one in
  let inv := isNegative ops root in
  let root := if inv then big_neg ops root else root in
  if isZero ops root then
    Throw (Error msg_root_nonzero)
  else if isNegative ops a
          && negb (big_equals ops (big_mod ops (big_abs ops root) two) one) then
    Throw (Error msg_root_odd)
  else if isZero ops a then
    Return (if inv then SBig (Big_new Infinity) else SNum zero)
  else if negb (big_isFinite ops a) then
    Return (SBig (if inv then zero_big else a))
  else
    let x := big_pow ops (big_abs ops a) (big_div ops one_big root) in
    let x := if isNeg ops a then big_neg ops x else x in
    Return (SBig (BigNumber_parse ops
                    (toPrecision ops (if inv then big_div ops one_big x else x)
                                 precision))).

(** The scalar signatures of the [typed] table: ['number, number'],
    ['BigNumber, BigNumber'] and ['Complex, number'].  This is what the
    callback [nthRoot] computes on a pair of matrix cells. *)
Definition nthRoot_scalars (x y : scalar Big) : result (scalar Big) :=
  match x, y with
  | SNum a, SNum root => rmap SNum (_nthRoot Math_pow a root)
  | SBig a, SBig root => _bigNthRoot a root
  | SComplex _, SNum _ => Throw (Error complexErr)
  | _, _ => typed_scalars env x y
  end.

(** [y.density() === 1] *)
Definition density_is_one (y : SparseMatrix Big) : bool :=
  strict_eq (density env y) one.

(** The signatures whose two operands are matrices. *)
Definition nthRoot_matrices (x y : Matrix Big) : result (Matrix Big) :=
  match x, y with
  | Sparse x, Sparse y =>
      if density_is_one y then algorithm06 env x y nthRoot_scalars
      else Throw (Error msg_root_nonzero)
  | Sparse x, Dense y =>
      algorithm02 env y x nthRoot_scalars true
  | Dense x, Sparse y =>
      if density_is_one y then algorithm01 env x y nthRoot_scalars false
      else Throw (Error msg_root_nonzero)
  | Dense x, Dense y =>
      algorithm13 env x y nthRoot_scalars
  end.

(** ['SparseMatrix, number | BigNumber'] and
    ['DenseMatrix, number | BigNumber'] *)
Definition nthRoot_matrix_scalar (x : Matrix Big) (y : scalar Big)
  : result (Matrix Big) :=
  match x with
  | Sparse x => algorithm11 env x y nthRoot_scalars false
  | Dense x => algorithm14 env x y nthRoot_scalars false
  end.

(** ['number | BigNumber, SparseMatrix'] and
    ['number | BigNumber, DenseMatrix'] *)
Definition nthRoot_scalar_matrix (x : scalar Big) (y : Matrix Big)
  : result (Matrix Big) :=
  match y with
  | Sparse y =>
      if density_is_one y then algorithm11 env y x nthRoot_scalars true
      else Throw (Error msg_root_nonzero)
  | Dense y => algorithm14 env y x nthRoot_scalars true
  end.

(** [number | BigNumber] in a signature *)
Definition is_number_or_BigNumber (s : scalar Big) : bool :=
  match s with
  | SNum _ | SBig _ => true
  | SComplex _ => false
  end.

(** The two-argument signatures of [nthRoot]. *)
Definition nthRoot2 (x y : value Big) : result (value Big) :=
  match x, y with
  | VScalar a, VScalar b => rmap VScalar (nthRoot_scalars a b)
  | VMatrix x, VMatrix y => rmap VMatrix (nthRoot_matrices x y)
  | VArray x, VArray y =>
      rmap (fun m => VArray (valueOf env m))
           (nthRoot_matrices (matrix env x) (matrix env y))
  | VArray x, VMatrix y =>
      rmap VMatrix (nthRoot_matrices (matrix env x) y)
  | VMatrix x, VArray y =>
      rmap VMatrix (nthRoot_matrices x (matrix env y))
  | VMatrix m, VScalar s =>
      if is_number_or_BigNumber s
      then rmap VMatrix (nthRoot_matrix_scalar m s)
      else typed_other env [x; y]
  | VScalar s, VMatrix m =>
      if is_number_or_BigNumber s
      then rmap VMatrix (nthRoot_scalar_matrix s m)
      else typed_other env [x; y]
  | VArray a, VScalar s =>
      if is_number_or_BigNumber s
      then rmap (fun m => VArray (valueOf env m))
                (nthRoot_matrix_scalar (matrix env a) s)
      else typed_other env [x; y]
  | VScalar s, VArray a =>
      if is_number_or_BigNumber s
      then rmap (fun m => VArray (valueOf env m))
                (nthRoot_scalar_matrix s (matrix env a))
      else typed_other env [x; y]
  end.

(** The one-argument signatures of [nthRoot]. *)
Definition nthRoot1 (x : value Big) : result (value Big) :=
  match x with
  | VScalar (SNum x) => rmap (fun v => VScalar (SNum v)) (_nthRoot Math_pow x two)
  | VScalar (SBig x) => rmap VScalar (_bigNthRoot x (BigNumber_new ops two))
  | VScalar (SComplex _) => Throw (Error complexErr)
  | VArray _ | VMatrix _ => nthRoot2 x (VScalar (SNum two))
  end.

(** [nthRoot], applied to its argument list. *)
Definition nthRoot (args : list (value Big)) : result (value Big) :=
  match args with
  | [x] => nthRoot1 x
  | [x; y] => nthRoot2 x y
  | _ => typed_other env args
  end.

End NthRoot.

(** ** The traversal strategies, from the specification

    The algorithm modules ([algorithm01] ... [algorithm14]), [matrix] and
    [valueOf] are imported by [nthRoot.js] from other files.  The
    definitions of this section follow the specification's description of
    them, the conditions under which a strategy fails included. *)

Section Strategies.

Context {Big : Type}.
Variable ops : BigNumberOps Big.

Definition DimensionMismatch : exn := Error "Dimension mismatch".

(** An implicit zero, read as a cell. *)
Definition implicit_zero : scalar Big := SNum zero.

(** The stored entries (row, value) of column [j]. *)
Definition sparse_column (m : SparseMatrix Big) (j : nat) : list (nat * scalar Big) :=
  let k0 := nth j (sparse_ptr m) O in
  let k1 := nth (S j) (sparse_ptr m) O in
  combine (firstn (k1 - k0) (skipn k0 (sparse_index m)))
          (firstn (k1 - k0) (skipn k0 (sparse_values m))).

(** The value at coordinate (i, j): the stored one, or an implicit zero. *)
Definition sparse_get (m : SparseMatrix Big) (i j : nat) : scalar Big :=
  match find (fun p => Nat.eqb (fst p) i) (sparse_column m j) with
  | Some (_, v) => v
  | None => implicit_zero
  end.

Fixpoint mapM {A B : Type} (f : A -> result B) (l : list A) : result (list B) :=
  match l with
  | [] => Return []
  | x :: r => y <- f x ;; ys <- mapM f r ;; Return (y :: ys)
  end.

(** Apply [f] to every cell of a nested sequence, first error wins. *)
Fixpoint nested_map (f : scalar Big -> result (scalar Big)) (t : NestedSeq Big)
  : result (NestedSeq Big) :=
  match t with
  | Leaf s => rmap Leaf (f s)
  | Seq l =>
      rmap Seq
        ((fix go (l : list (NestedSeq Big)) : result (list (NestedSeq Big)) :=
            match l with
            | [] => Return []
            | x :: r => y <- nested_map f x ;; ys <- go r ;; Return (y :: ys)
            end) l)
  end.

(** Apply [f] to the cells of two nested sequences of the same shape. *)
Fixpoint nested_zip (f : callback Big) (a b : NestedSeq Big)
  : result (NestedSeq Big) :=
  match a, b with
  | Leaf x, Leaf y => rmap Leaf (f x y)
  | Seq la, Seq lb =>
      rmap Seq
        ((fix go (la lb : list (NestedSeq Big)) : result (list (NestedSeq Big)) :=
            match la, lb with
            | [], [] => Return []
            | x :: ra, y :: rb =>
                z <- nested_zip f x y ;; zs <- go ra rb ;; Return (z :: zs)
            | _, _ => Throw DimensionMismatch
            end) la lb)
  | _, _ => Throw DimensionMismatch
  end.

Definition same_size (a b : list nat) : bool :=
  if list_eq_dec Nat.eq_dec a b then true else false.

(** Modelled from the spec: the DenseDense strategy ([algorithm13], not
    in this file): the dimensions must match exactly, the operation is
    computed at every coordinate and the output is dense, same shape. *)
Definition DenseDense (a b : DenseMatrix Big) (cb : callback Big)
  : result (Matrix Big) :=
  if same_size (dense_size a) (dense_size b) then
    rmap (fun d => Dense (Build_DenseMatrix d (dense_size a)))
         (nested_zip cb (dense_data a) (dense_data b))
  else Throw DimensionMismatch.

(** One row of the dense operand against row [i] of the sparse one. *)
Fixpoint dense_sparse_row (s : SparseMatrix Big) (cb : callback Big)
         (inverse : bool) (i j : nat) (cells : list (NestedSeq Big))
  : result (list (NestedSeq Big)) :=
  match cells with
  | [] => Return []
  | Leaf d :: r =>
      v <- (if inverse then cb (sparse_get s i j) d else cb d (sparse_get s i j)) ;;
      vs <- dense_sparse_row s cb inverse i (S j) r ;;
      Return (Leaf v :: vs)
  | Seq _ :: _ => Throw DimensionMismatch
  end.

Fixpoint dense_sparse_rows (s : SparseMatrix Big) (cb : callback Big)
         (inverse : bool) (i : nat) (rows : list (NestedSeq Big))
  : result (list (NestedSeq Big)) :=
  match rows with
  | [] => Return []
  | Seq cells :: r =>
      row <- dense_sparse_row s cb inverse i O cells ;;
      rest <- dense_sparse_rows s cb inverse (S i) r ;;
      Return (Seq row :: rest)
  | Leaf _ :: _ => Throw DimensionMismatch
  end.

(** Modelled from the spec: [density()] (not in this file) reports the
    fraction of stored entries relative to the total size; a density of
    1 means that no implicit zero exists.  An empty shape has density 0. *)
Definition density_of_stored (m : SparseMatrix Big) : number :=
  let total := (fst (sparse_size m) * snd (sparse_size m))%nat in
  match total with
  | O => zero
  | S _ => div (of_Z (Z.of_nat (List.length (sparse_index m))))
               (of_Z (Z.of_nat total))
  end.

(** Modelled from the spec: the DenseSparse / SparseDense strategies
    ([algorithm01] and [algorithm02], not in this file), which the
    specification describes together: the sparse operand must have
    density 1, otherwise the strategy fails with NonInvertibleZero; with
    density 1 the result is computed coordinate by coordinate and
    returned as dense.  [inverse] says that the sparse cell is the left
    argument of the operation. *)
Definition DenseSparse (d : DenseMatrix Big) (s : SparseMatrix Big)
           (cb : callback Big) (inverse : bool) : result (Matrix Big) :=
  if strict_eq (density_of_stored s) one then
    if same_size (dense_size d) [fst (sparse_size s); snd (sparse_size s)] then
      match dense_data d with
      | Seq rows =>
          rmap (fun rs => Dense (Build_DenseMatrix (Seq rs) (dense_size d)))
               (dense_sparse_rows s cb inverse O rows)
      | Leaf _ => Throw DimensionMismatch
      end
    else Throw DimensionMismatch
  else Throw NonInvertibleZero.

(** The rows of column [j] that either operand stores, in increasing order. *)
Definition touched_rows (a b : SparseMatrix Big) (j : nat) : list nat :=
  filter (fun i => existsb (fun p => Nat.eqb (fst p) i) (sparse_column a j)
                   || existsb (fun p => Nat.eqb (fst p) i) (sparse_column b j))
         (seq O (fst (sparse_size a))).

(** Columns [j .. j + n - 1] of the sparse-sparse result: values, row
    indices and column pointers, given [k] entries already emitted. *)
Fixpoint sparse_sparse_columns (a b : SparseMatrix Big) (cb : callback Big)
         (n j k : nat) : result (list (scalar Big) * list nat * list nat) :=
  match n with
  | O => Return ([], [], [k])
  | S n' =>
      let rows := touched_rows a b j in
      vs <- mapM (fun i => cb (sparse_get a i j) (sparse_get b i j)) rows ;;
      rest <- sparse_sparse_columns a b cb n' (S j) (k + List.length rows) ;;
      let '(values, index, ptr) := rest in
      Return (vs ++ values, rows ++ index, k :: ptr)
  end.

(** Modelled from the spec: the SparseSparse strategy ([algorithm06],
    not in this file): it walks the stored coordinates of the operands
    and produces a sparse result over the union of touched coordinates. *)
Definition SparseSparse (a b : SparseMatrix Big) (cb : callback Big)
  : result (Matrix Big) :=
  if same_size [fst (sparse_size a); snd (sparse_size a)]
               [fst (sparse_size b); snd (sparse_size b)] then
    rmap (fun r => let '(values, index, ptr) := r in
                   Sparse (Build_SparseMatrix values index ptr (sparse_size a)))
         (sparse_sparse_columns a b cb (snd (sparse_size a)) O O)
  else Throw DimensionMismatch.

(** Modelled from the spec: the MatrixScalar / ScalarMatrix strategy on a
    dense operand ([algorithm14], not in this file): the operation is
    broadcast over every cell, in the order the [inverse] flag gives,
    and the output is dense, same shape. *)
Definition DenseScalar (m : DenseMatrix Big) (s : scalar Big)
           (cb : callback Big) (inverse : bool) : result (Matrix Big) :=
  rmap (fun d => Dense (Build_DenseMatrix d (dense_size m)))
       (nested_map (fun c => if inverse then cb s c else cb c s) (dense_data m)).

(** A cell that is zero, and a scalar that is negative. *)
Definition is_zero_cell (c : scalar Big) : bool :=
  match c with
  | SNum x => strict_eq x zero
  | SBig b => isZero ops b
  | SComplex z => strict_eq (re z) zero && strict_eq (im z) zero
  end.

Definition is_negative_scalar (s : scalar Big) : bool :=
  match s with
  | SNum x => lt x zero
  | SBig b => isNegative ops b
  | SComplex _ => false
  end.

(** The operation on the stored entries of one column; a result that is
    zero is not stored. *)
Fixpoint broadcast_column (f : scalar Big -> result (scalar Big))
         (entries : list (nat * scalar Big)) : result (list (nat * scalar Big)) :=
  match entries with
  | [] => Return []
  | (i, c) :: r =>
      v <- f c ;;
      rest <- broadcast_column f r ;;
      Return (if is_zero_cell v then rest else (i, v) :: rest)
  end.

(** Columns [j .. j + n - 1] of the broadcast: values, row indices and
    column pointers, given [k] entries already emitted. *)
Fixpoint sparse_scalar_columns (m : SparseMatrix Big)
         (f : scalar Big -> result (scalar Big)) (n j k : nat)
  : result (list (scalar Big) * list nat * list nat) :=
  match n with
  | O => Return ([], [], [k])
  | S n' =>
      col <- broadcast_column f (sparse_column m j) ;;
      rest <- sparse_scalar_columns m f n' (S j) (k + List.length col) ;;
      let '(values, index, ptr) := rest in
      Return (map snd col ++ values, map fst col ++ index, k :: ptr)
  end.

(** Modelled from the spec: the MatrixScalar / ScalarMatrix strategy on a
    sparse operand ([algorithm11], not in this file): a negative root
    (the scalar on the right) against a sparse operand that contains
    implicit zeros fails with NonInvertibleZero; otherwise the operation
    is broadcast over the stored coordinates only, an implicit zero stays
    implicit, and only non-zero values are stored. *)
Definition SparseScalar (m : SparseMatrix Big) (s : scalar Big)
           (cb : callback Big) (inverse : bool) : result (Matrix Big) :=
  if negb inverse && is_negative_scalar s && lt (density_of_stored m) one then
    Throw NonInvertibleZero
  else
    rmap (fun r => let '(values, index, ptr) := r in
                   Sparse (Build_SparseMatrix values index ptr (sparse_size m)))
         (sparse_scalar_columns m (fun c => if inverse then cb s c else cb c s)
                                (snd (sparse_size m)) O O).

(** The size vector of a nested sequence, read along its first items. *)
Fixpoint nested_size (t : NestedSeq Big) : list nat :=
  match t with
  | Leaf _ => []
  | Seq l => List.length l :: match l with
                              | [] => []
                              | x :: _ => nested_size x
                              end
  end.

(** Modelled from the spec: [matrix(nestedSequence)] (not in this file)
    builds a matrix holding the sequence; the dense kind is used. *)
Definition matrix_of_array (a : NestedSeq Big) : Matrix Big :=
  Dense (Build_DenseMatrix a (nested_size a)).

(** Modelled from the spec: [valueOf()] (not in this file) gives the
    nested sequence of a matrix; implicit zeros are read as zero. *)
Definition matrix_valueOf (m : Matrix Big) : NestedSeq Big :=
  match m with
  | Dense d => dense_data d
  | Sparse s =>
      Seq (map (fun i => Seq (map (fun j => Leaf (sparse_get s i j))
                                  (seq O (snd (sparse_size s)))))
               (seq O (fst (sparse_size s))))
  end.

Definition msg_no_signature : string :=
  "Unexpected type of argument in function nthRoot".

(** Modelled from the spec: the dispatcher performs no widening between
    native and arbitrary-precision scalars, so an argument list outside
    the listed signatures is rejected by [typed] (not in this file). *)
Definition spec_env : Collaborators Big := {|
  density := density_of_stored;
  algorithm01 := DenseSparse;
  algorithm02 := DenseSparse;
  algorithm06 := SparseSparse;
  algorithm11 := SparseScalar;
  algorithm13 := DenseDense;
  algorithm14 := DenseScalar;
  matrix := matrix_of_array;
  valueOf := matrix_valueOf;
  typed_scalars := fun _ _ => Throw (Error msg_no_signature);
  typed_other := fun _ => Throw (Error msg_no_signature)
|}.

End Strategies.

(** ** A reference instance of the collaborators

    The theorems below hold for every implementation of the BigNumber
    interface and of [Math.pow].  To evaluate the routines on closed
    inputs, this section gives one implementation of each: signed decimal
    values [coefficient * 10 ^ exponent] with NaN and the two infinities
    (decimal.js keeps the sign of zero, and so does this type), and a
    [Math.pow] that is exact where an IEEE-754 operation gives the
    correctly rounded answer (exponents 0, 1 and 1/2). *)

Module Decimal.

Inductive t : Type :=
| NaN
| Inf (negative : bool)
| Fin (negative : bool) (coefficient : N) (exponent : Z).

(** The exact decimal value of a number. *)
Definition of_number (n : number) : t :=
  match n with
  | S754_nan => NaN
  | S754_infinity s => Inf s
  | S754_zero s => Fin s 0%N 0
  | S754_finite s m e =>
      if 0 <=? e then Fin s (Z.to_N (Zpos m * 2 ^ e)) 0
      else Fin s (Z.to_N (Zpos m * 5 ^ (- e))) e
  end.

Definition isNegative (x : t) : bool :=
  match x with
  | NaN => false
  | Inf s | Fin s _ _ => s
  end.

Definition isZero (x : t) : bool :=
  match x with
  | Fin _ c _ => N.eqb c 0
  | _ => false
  end.

Definition isFinite (x : t) : bool :=
  match x with
  | Fin _ _ _ => true
  | _ => false
  end.

Definition neg (x : t) : t :=
  match x with
  | NaN => NaN
  | Inf s => Inf (negb s)
  | Fin s c e => Fin (negb s) c e
  end.

Definition abs (x : t) : t :=
  match x with
  | NaN => NaN
  | Inf _ => Inf false
  | Fin _ c e => Fin false c e
  end.

(** Both coefficients over the smaller of the two exponents. *)
Definition align (c1 : N) (e1 : Z) (c2 : N) (e2 : Z) : Z * Z * Z :=
  let e := Z.min e1 e2 in
  (Z.of_N c1 * 10 ^ (e1 - e), Z.of_N c2 * 10 ^ (e2 - e), e).

Definition signed (s : bool) (c : Z) : Z := if s then - c else c.

(** Numeric equality. *)
Definition eq (x y : t) : bool :=
  match x, y with
  | Inf s1, Inf s2 => Bool.eqb s1 s2
  | Fin s1 c1 e1, Fin s2 c2 e2 =>
      let '(a, b, _) := align c1 e1 c2 e2 in
      signed s1 a =? signed s2 b
  | _, _ => false
  end.

Definition equals (x : t) (n : number) : bool := eq x (of_number n).

(** Remainder of the truncating division, with the sign of the dividend. *)
Definition mod_ (x : t) (n : number) : t :=
  match x, of_number n with
  | NaN, _ | _, NaN => NaN
  | Inf _, _ => NaN
  | Fin s c e, Inf _ => x
  | Fin s1 c1 e1, Fin _ c2 e2 =>
      if N.eqb c2 0 then NaN
      else let '(a, b, e) := align c1 e1 c2 e2 in
           Fin s1 (Z.to_N (Z.rem a b)) e
  end.

Fixpoint digits_upto (fuel : nat) (c : N) : nat :=
  match fuel with
  | O => O
  | S f => if N.eqb c 0 then O else S (digits_upto f (c / 10)%N)
  end.

(** Number of decimal digits of a coefficient. *)
Definition digits (c : N) : nat := digits_upto (N.size_nat c) c.

(** Round a finite value to [p] significant digits, half up. *)
Definition round_sig (p : nat) (s : bool) (c : N) (e : Z) : t :=
  let d := (digits c - p)%nat in
  match d with
  | O => Fin s c e
  | S d' =>
      Fin s ((c + 5 * 10 ^ N.of_nat d') / 10 ^ N.of_nat d)%N (e + Z.of_nat d)
  end.

(** Quotient to [p] significant digits. *)
Definition div (p : nat) (x y : t) : t :=
  match x, y with
  | NaN, _ | _, NaN => NaN
  | Inf _, Inf _ => NaN
  | Inf s1, Fin s2 _ _ => Inf (xorb s1 s2)
  | Fin s1 _ _, Inf s2 => Fin (xorb s1 s2) 0%N 0
  | Fin s1 c1 e1, Fin s2 c2 e2 =>
      if N.eqb c2 0 then (if N.eqb c1 0 then NaN else Inf (xorb s1 s2))
      else
        let k := N.of_nat (p + digits c2 + 1) in
        round_sig p (xorb s1 s2) (c1 * 10 ^ k / c2)%N (e1 - e2 - Z.of_N k)
  end.

(** Square root to [p] significant digits (truncated before rounding). *)
Definition sqrt (p : nat) (x : t) : t :=
  match x with
  | NaN => NaN
  | Inf s => if s then NaN else x
  | Fin s c e =>
      if N.eqb c 0 then x
      else if s then NaN
      else
        let k := (2 * N.of_nat (p + 1) + (if Z.even e then 0 else 1))%N in
        round_sig p false (N.sqrt (c * 10 ^ k)) ((e - Z.of_N k) / 2)
  end.

Definition half : t := Fin false 5%N (-1).
Definition unit : t := Fin false 1%N 0.

(** Power to [p] significant digits, for the exponents 0, 1 and 1/2. *)
Definition pow (p : nat) (x y : t) : t :=
  if eq y half then sqrt p x
  else if eq y unit then x
  else if isZero y then unit
  else NaN.

(** The value in exponential notation, to [p] significant digits. *)
Definition toPrecision (x : t) (p : nat) : string :=
  match x with
  | NaN => "NaN"
  | Inf s => if s then "-Infinity" else "Infinity"
  | Fin s c e =>
      match round_sig p s c e with
      | Fin s' c' e' =>
          String.append (if s' then "-" else "")
            (String.append (NilZero.string_of_uint (N.to_uint c'))
               (String.append "e" (NilZero.string_of_int (Z.to_int e'))))
      | _ => "NaN"
      end
  end%string.

(** The text before and after the first ["e"]. *)
Fixpoint split_e (s : string) : string * string :=
  match s with
  | EmptyString => (EmptyString, EmptyString)
  | String c r =>
      if Ascii.eqb c "e"%char then (EmptyString, r)
      else let '(a, b) := split_e r in (String c a, b)
  end.

Definition parse (s : string) : t :=
  if String.eqb s "Infinity" then Inf false
  else if String.eqb s "-Infinity" then Inf true
  else
    let '(m, e) := split_e s in
    match NilZero.int_of_string m, NilZero.int_of_string e with
    | Some m, Some e =>
        let c := Z.of_int m in
        Fin (match s with String "-"%char _ => true | _ => false end)
            (Z.to_N (Z.abs c)) (Z.of_int e)
    | _, _ => NaN
    end.

End Decimal.

(** The BigNumber interface over [Decimal.t], with 64 significant digits
    (the default of mathjs).  Division is called on a receiver from the
    boosted clone, [pow] on a receiver from [BigNumber] itself. *)
Definition decimal_ops : BigNumberOps Decimal.t := {|
  precision := 64;
  BigNumber_new := Decimal.of_number;
  BigNumber_parse := Decimal.parse;
  clone_new := fun _ n => Decimal.of_number n;
  isNegative := Decimal.isNegative;
  isNeg := Decimal.isNegative;
  isZero := Decimal.isZero;
  big_isFinite := Decimal.isFinite;
  big_neg := Decimal.neg;
  big_abs := Decimal.abs;
  big_mod := Decimal.mod_;
  big_equals := Decimal.equals;
  big_pow := Decimal.pow 64;
  big_div := Decimal.div 66;
  toPrecision := Decimal.toPrecision
|}.

Definition half : number := Eval vm_compute in div one two.

(** [Math.pow] where IEEE-754 fixes the result: exponent zero gives 1, a
    NaN exponent NaN, exponent 1 the base, exponent 1/2 the correctly
    rounded square root (of a non-negative base); NaN elsewhere. *)
Definition Math_pow_ref (x y : number) : number :=
  match y with
  | S754_zero _ => one
  | S754_nan => JS.NaN
  | _ =>
      if strict_eq y one then x
      else if strict_eq y half then
        match x with
        | S754_zero _ => zero
        | S754_infinity _ => Infinity
        | S754_finite true _ _ => JS.NaN
        | _ => SFsqrt prec emax x
        end
      else JS.NaN
  end.

(** The double nearest to 1/3. *)
Definition third : number := Eval vm_compute in div one (of_Z 3).

(** [Math_pow_ref] with one more correctly rounded value: [third] is
    [6004799503160661 * 2 ^ -54], so 8 to that power is
    [2 ^ (1 - 2 ^ -54)], which lies above the midpoint [2 - 2 ^ -53] of
    the two doubles around it and therefore rounds to 2. *)
Definition Math_pow_cbrt (x y : number) : number :=
  if strict_eq x (of_Z 8) && strict_eq y third then two else Math_pow_ref x y.

(** Closed operands for the examples: a 2 x 2 SparseMatrix that stores
    only the value 4 at (0, 0), 1 x 1 SparseMatrices without implicit
    zeros, and DenseMatrices. *)
Definition sparse_four : SparseMatrix Decimal.t :=
  Build_SparseMatrix [SNum (of_Z 4)] [0%nat] [0%nat; 1%nat; 1%nat] (2%nat, 2%nat).

Definition sparse_1x1 (x : number) : SparseMatrix Decimal.t :=
  Build_SparseMatrix [SNum x] [0%nat] [0%nat; 1%nat] (1%nat, 1%nat).

Definition dense_1x1 (x : number) : DenseMatrix Decimal.t :=
  Build_DenseMatrix (Seq [Seq [Leaf (SNum x)]]) [1%nat; 1%nat].

Definition dense_2x2 (a b c d : number) : DenseMatrix Decimal.t :=
  Build_DenseMatrix
    (Seq [Seq [Leaf (SNum a); Leaf (SNum b)]; Seq [Leaf (SNum c); Leaf (SNum d)]])
    [2%nat; 2%nat].

(** [nthRoot] over the reference collaborators. *)
Definition nthRoot_ref : list (value Decimal.t) -> result (value Decimal.t) :=
  nthRoot decimal_ops Math_pow_ref (spec_env decimal_ops).

(** The three kinds of runtime value, and the kind [nthRoot] answers
    with for two operands: a matrix when either operand is one, else an
    array when either operand is one, else a scalar. *)
Inductive kind : Type := ScalarKind | ArrayKind | MatrixKind.

Definition kind_of {Big : Type} (v : value Big) : kind :=
  match v with
  | VScalar _ => ScalarKind
  | VArray _ => ArrayKind
  | VMatrix _ => MatrixKind
  end.

Definition join_kind (k1 k2 : kind) : kind :=
  match k1, k2 with
  | MatrixKind, _ | _, MatrixKind => MatrixKind
  | ArrayKind, _ | _, ArrayKind => ArrayKind
  | ScalarKind, ScalarKind => ScalarKind
  end.

(** An operand some listed signature takes next to an array or a matrix:
    every array, every matrix, and the scalars [number | BigNumber]. *)
Definition broadcastable {Big : Type} (v : value Big) : bool :=
  match v with
  | VScalar s => is_number_or_BigNumber s
  | VArray _ | VMatrix _ => true
  end.

(** * Properties *)

(** ** The definitions on closed inputs *)

Example rem_7_2 : rem (of_Z 7) two = one.
Proof. reflexivity. Qed.

Example rem_minus_7_2 : rem (of_Z (-7)) two = neg one.
Proof. reflexivity. Qed.

Example rem_8_2 : rem (of_Z 8) two = zero.
Proof. reflexivity. Qed.

Example rem_half_2 : rem half two = half.
Proof. reflexivity. Qed.

Example rem_Infinity_2 : rem Infinity two = JS.NaN.
Proof. reflexivity. Qed.

Example odd_integer_3 : is_odd_integer (of_Z 3) = true.
Proof. reflexivity. Qed.

Example odd_integer_4 : is_odd_integer (of_Z 4) = false.
Proof. reflexivity. Qed.

Example odd_integer_half : is_odd_integer half = false.
Proof. reflexivity. Qed.

Example _nthRoot_9_2 : _nthRoot Math_pow_ref (of_Z 9) two = Return (of_Z 3).
Proof. reflexivity. Qed.

Example _bigNthRoot_9_2 :
  exists x,
    _bigNthRoot decimal_ops (Decimal.Fin false 9 0) (Decimal.Fin false 2 0)
    = Return (SBig x)
    /\ Decimal.equals x (of_Z 3) = true.
Proof. eexists. split; reflexivity. Qed.

Example nthRoot_default_9 :
  nthRoot_ref [VScalar (SNum (of_Z 9))] = Return (VScalar (SNum (of_Z 3))).
Proof. reflexivity. Qed.

Example nthRoot_Complex (z : Complex) :
  nthRoot_ref [VScalar (SComplex z); VScalar (SNum two)] = Throw UnsupportedType.
Proof. reflexivity. Qed.

Example nthRoot_arrays :
  nthRoot_ref [VArray (Seq [Leaf (SNum (of_Z 9)); Leaf (SNum (of_Z 4))]);
               VArray (Seq [Leaf (SNum two); Leaf (SNum (of_Z (-2)))])]
  = Return (VArray (Seq [Leaf (SNum (of_Z 3)); Leaf (SNum half)])).
Proof. reflexivity. Qed.

(** ** Comparisons and sign on numbers *)

Lemma neg_involutive (r : number) : neg (neg r) = r.
Proof. destruct r as [s | s | | s m e]; simpl; try rewrite negb_involutive; reflexivity. Qed.

Lemma abs_neg (r : number) : abs (neg r) = abs r.
Proof. destruct r; reflexivity. Qed.

Lemma strict_eq_zero_inv (r : number) :
  strict_eq r zero = true -> exists s, r = S754_zero s.
Proof.
  destruct r as [s | s | | s m e]; simpl; intros H.
  - now exists s.
  - destruct s; discriminate.
  - discriminate.
  - destruct s; discriminate.
Qed.

Lemma strict_eq_neg_zero (r : number) :
  strict_eq (neg r) zero = strict_eq r zero.
Proof.
  destruct r as [s | s | | s m e]; simpl; try reflexivity; destruct s; reflexivity.
Qed.

Lemma lt_zero_not_zero (r : number) :
  lt r zero = true -> strict_eq r zero = false.
Proof.
  destruct r as [s | s | | s m e]; simpl; try discriminate; destruct s; intros; easy.
Qed.

Lemma gt_zero_facts (r : number) :
  lt zero r = true ->
  lt r zero = false /\ strict_eq r zero = false /\ lt (neg r) zero = true.
Proof.
  destruct r as [s | s | | s m e]; simpl; try discriminate; destruct s; intros; easy.
Qed.

(** The root [_nthRoot] works with, after [if (inv) root = -root]. *)
Lemma root_abs_not_zero (r : number) :
  strict_eq r zero = false ->
  strict_eq (if lt r zero then neg r else r) zero = false.
Proof.
  intros H. destruct (lt r zero); [now rewrite strict_eq_neg_zero | exact H].
Qed.

Lemma abs_root_abs (r : number) :
  abs (if lt r zero then neg r else r) = abs r.
Proof. destruct (lt r zero); [apply abs_neg | reflexivity]. Qed.

Lemma zero_not_lt_zero (a : number) :
  strict_eq a zero = true -> lt a zero = false.
Proof.
  intros H. destruct (strict_eq_zero_inv a H) as [s ->]. reflexivity.
Qed.

(** ** The scalar routine on numbers, branch by branch *)

Section NumberBranches.

Variable Math_pow : number -> number -> number.

Lemma _nthRoot_zero_root (a r : number) :
  strict_eq r zero = true ->
  _nthRoot Math_pow a r = Throw InvalidRoot.
Proof.
  intros H. destruct (strict_eq_zero_inv r H) as [s ->]. reflexivity.
Qed.

Lemma _nthRoot_parity (a r : number) :
  lt a zero = true ->
  strict_eq r zero = false ->
  strict_eq (rem (abs r) two) one = false ->
  _nthRoot Math_pow a r = Throw InvalidRootParity.
Proof.
  intros Ha Hr Hodd. unfold _nthRoot.
  rewrite (root_abs_not_zero r Hr), Ha, abs_root_abs, Hodd. reflexivity.
Qed.

Lemma _nthRoot_zero_base (a r : number) :
  strict_eq a zero = true ->
  strict_eq r zero = false ->
  _nthRoot Math_pow a r = Return (if lt r zero then Infinity else zero).
Proof.
  intros Ha Hr. unfold _nthRoot.
  rewrite (root_abs_not_zero r Hr), (zero_not_lt_zero a Ha), Ha. reflexivity.
Qed.

Lemma _nthRoot_pos_infinite_base (r : number) :
  strict_eq r zero = false ->
  _nthRoot Math_pow Infinity r = Return (if lt r zero then zero else Infinity).
Proof.
  intros Hr. unfold _nthRoot.
  rewrite (root_abs_not_zero r Hr). reflexivity.
Qed.

Lemma _nthRoot_NaN_base (r : number) :
  strict_eq r zero = false ->
  _nthRoot Math_pow JS.NaN r = Return (if lt r zero then zero else JS.NaN).
Proof.
  intros Hr. unfold _nthRoot.
  rewrite (root_abs_not_zero r Hr). reflexivity.
Qed.

End NumberBranches.

(** ** The scalar routine on BigNumbers, branch by branch *)

Section BigBranches.

Context {Big : Type}.
Variable ops : BigNumberOps Big.

Lemma _bigNthRoot_zero_root (a root : Big) :
  isZero ops (big_root_abs ops root) = true ->
  _bigNthRoot ops a root = Throw InvalidRoot.
Proof.
  unfold _bigNthRoot, big_root_abs. intros H. rewrite H. reflexivity.
Qed.

Lemma _bigNthRoot_parity (a root : Big) :
  isZero ops (big_root_abs ops root) = false ->
  big_parity_fails ops a root = true ->
  _bigNthRoot ops a root = Throw InvalidRootParity.
Proof.
  unfold _bigNthRoot, big_parity_fails, big_root_abs. intros H1 H2.
  rewrite H1, H2. reflexivity.
Qed.

Lemma _bigNthRoot_zero_base (a root : Big) :
  isZero ops (big_root_abs ops root) = false ->
  big_parity_fails ops a root = false ->
  isZero ops a = true ->
  _bigNthRoot ops a root =
    Return (if isNegative ops root
            then SBig (clone_new ops (precision ops + 2) Infinity)
            else SNum zero).
Proof.
  unfold _bigNthRoot, big_parity_fails, big_root_abs. intros H1 H2 H3.
  rewrite H1, H2, H3. reflexivity.
Qed.

Lemma _bigNthRoot_infinite_base (a root : Big) :
  isZero ops (big_root_abs ops root) = false ->
  big_parity_fails ops a root = false ->
  isZero ops a = false ->
  big_isFinite ops a = false ->
  _bigNthRoot ops a root =
    Return (SBig (if isNegative ops root then BigNumber_new ops zero else a)).
Proof.
  unfold _bigNthRoot, big_parity_fails, big_root_abs. intros H1 H2 H3 H4.
  rewrite H1, H2, H3, H4. reflexivity.
Qed.

End BigBranches.

(** ** Zero root, zero base, infinite base *)

(** C6. For every base, a root that is exactly zero ([root === 0], either
    sign of zero) makes [_nthRoot] throw 'Root must be non-zero'
    (InvalidRoot), and so does [_bigNthRoot] for a BigNumber root with
    [isZero()], given that negating a BigNumber zero yields a zero.  The
    base is universally quantified, negative, zero and non-finite values
    included: the check comes before every test on the base. *)
Theorem C6_zero_root_invalid :
  (forall (Math_pow : number -> number -> number) (a r : number),
      strict_eq r zero = true ->
      _nthRoot Math_pow a r = Throw InvalidRoot)
  /\ (forall (Big : Type) (ops : BigNumberOps Big),
         (forall x, isZero ops (big_neg ops x) = isZero ops x) ->
         forall a root : Big,
           isZero ops root = true ->
           _bigNthRoot ops a root = Throw InvalidRoot).
Proof.
  split.
  - intros Math_pow a r H. now apply _nthRoot_zero_root.
  - intros Big ops Hneg a root H. apply _bigNthRoot_zero_root.
    unfold big_root_abs. destruct (isNegative ops root); [now rewrite Hneg | exact H].
Qed.

Lemma decimal_isZero_neg (x : Decimal.t) :
  isZero decimal_ops (big_neg decimal_ops x) = isZero decimal_ops x.
Proof. destruct x; reflexivity. Qed.

Lemma C6_witness :
  _nthRoot Math_pow_ref (of_Z (-8)) zero = Throw InvalidRoot
  /\ _nthRoot Math_pow_ref JS.NaN neg_zero = Throw InvalidRoot
  /\ _nthRoot Math_pow_ref zero zero = Throw InvalidRoot
  /\ _nthRoot Math_pow_ref Infinity zero = Throw InvalidRoot
  /\ _bigNthRoot decimal_ops (Decimal.Inf true) (Decimal.Fin true 0 0)
     = Throw InvalidRoot
  /\ _bigNthRoot decimal_ops (Decimal.Fin false 0 0) (Decimal.Fin false 0 0)
     = Throw InvalidRoot.
Proof.
  destruct C6_zero_root_invalid as [Hn Hb].
  split; [| split; [| split; [| split; [| split]]]].
  - apply Hn. reflexivity.
  - apply Hn. reflexivity.
  - apply Hn. reflexivity.
  - apply Hn. reflexivity.
  - apply (Hb _ decimal_ops decimal_isZero_neg). reflexivity.
  - apply (Hb _ decimal_ops decimal_isZero_neg). reflexivity.
Defined.

(** C4. For a root that is not zero and passes the parity check, the nth
    root of a zero base is [0] for a positive root and [+Infinity] for a
    negative one, and the nth root of [+Infinity] is [+Infinity] for a
    positive root and [0] for a negative one.  On numbers the parity check
    cannot fail for these bases.  On BigNumbers the zero base is [a] with
    [isZero()], the infinite base one that is neither zero nor finite, the
    zero result for a positive root is the number [0] and the others are
    BigNumbers. *)
Theorem C4_zero_and_infinite_base :
  (forall (Math_pow : number -> number -> number) (a r : number),
      strict_eq a zero = true ->
      (lt zero r = true -> _nthRoot Math_pow a r = Return zero)
      /\ (lt r zero = true -> _nthRoot Math_pow a r = Return Infinity))
  /\ (forall (Math_pow : number -> number -> number) (r : number),
         (lt zero r = true -> _nthRoot Math_pow Infinity r = Return Infinity)
         /\ (lt r zero = true -> _nthRoot Math_pow Infinity r = Return zero))
  /\ (forall (Big : Type) (ops : BigNumberOps Big) (a root : Big),
         isZero ops (big_root_abs ops root) = false ->
         big_parity_fails ops a root = false ->
         (isZero ops a = true ->
          (isNegative ops root = false ->
           _bigNthRoot ops a root = Return (SNum zero))
          /\ (isNegative ops root = true ->
              _bigNthRoot ops a root =
                Return (SBig (clone_new ops (precision ops + 2) Infinity))))
         /\ (isZero ops a = false -> big_isFinite ops a = false ->
             (isNegative ops root = false ->
              _bigNthRoot ops a root = Return (SBig a))
             /\ (isNegative ops root = true ->
                 _bigNthRoot ops a root = Return (SBig (BigNumber_new ops zero))))).
Proof.
  split; [| split].
  - intros Math_pow a r Ha. split; intros Hr.
    + destruct (gt_zero_facts r Hr) as (Hl & Hz & _).
      rewrite (_nthRoot_zero_base Math_pow a r Ha Hz), Hl. reflexivity.
    + rewrite (_nthRoot_zero_base Math_pow a r Ha (lt_zero_not_zero r Hr)), Hr.
      reflexivity.
  - intros Math_pow r. split; intros Hr.
    + destruct (gt_zero_facts r Hr) as (Hl & Hz & _).
      rewrite (_nthRoot_pos_infinite_base Math_pow r Hz), Hl. reflexivity.
    + rewrite (_nthRoot_pos_infinite_base Math_pow r (lt_zero_not_zero r Hr)), Hr.
      reflexivity.
  - intros Big ops a root Hroot Hpar. split.
    + intros Ha.
      pose proof (_bigNthRoot_zero_base ops a root Hroot Hpar Ha) as E.
      split; intros Hs; rewrite Hs in E; exact E.
    + intros Ha Hfin.
      pose proof (_bigNthRoot_infinite_base ops a root Hroot Hpar Ha Hfin) as E.
      split; intros Hs; rewrite Hs in E; exact E.
Qed.

Lemma C4_witness :
  (_nthRoot Math_pow_ref zero (of_Z 3) = Return zero
   /\ _nthRoot Math_pow_ref neg_zero (of_Z (-3)) = Return Infinity)
  /\ (_nthRoot Math_pow_ref Infinity two = Return Infinity
      /\ _nthRoot Math_pow_ref Infinity (of_Z (-2)) = Return zero)
  /\ (_bigNthRoot decimal_ops (Decimal.Fin false 0 0) (Decimal.Fin false 2 0)
      = Return (SNum zero)
      /\ _bigNthRoot decimal_ops (Decimal.Fin false 0 0) (Decimal.Fin true 2 0)
         = Return (SBig (Decimal.Inf false)))
  /\ (_bigNthRoot decimal_ops (Decimal.Inf false) (Decimal.Fin false 2 0)
      = Return (SBig (Decimal.Inf false))
      /\ _bigNthRoot decimal_ops (Decimal.Inf false) (Decimal.Fin true 2 0)
         = Return (SBig (Decimal.Fin false 0 0))).
Proof.
  destruct C4_zero_and_infinite_base as (Hz & Hi & Hb).
  split; [| split; [| split]].
  - split.
    + apply (Hz Math_pow_ref zero (of_Z 3)); reflexivity.
    + apply (Hz Math_pow_ref neg_zero (of_Z (-3))); reflexivity.
  - split.
    + apply (Hi Math_pow_ref two); reflexivity.
    + apply (Hi Math_pow_ref (of_Z (-2))); reflexivity.
  - split.
    + apply (Hb _ decimal_ops (Decimal.Fin false 0 0) (Decimal.Fin false 2 0));
        reflexivity.
    + apply (Hb _ decimal_ops (Decimal.Fin false 0 0) (Decimal.Fin true 2 0));
        reflexivity.
  - split.
    + apply (Hb _ decimal_ops (Decimal.Inf false) (Decimal.Fin false 2 0));
        reflexivity.
    + apply (Hb _ decimal_ops (Decimal.Inf false) (Decimal.Fin true 2 0));
        reflexivity.
Defined.

(** ** The zero-base branch of the BigNumber routine *)

Section BigGeneralBranch.

Context {Big : Type}.
Variable ops : BigNumberOps Big.

(** Every result for a finite non-zero base is read back from
    [toPrecision(precision)]. *)
Lemma _bigNthRoot_general (a root : Big) :
  isZero ops (big_root_abs ops root) = false ->
  big_parity_fails ops a root = false ->
  isZero ops a = false ->
  big_isFinite ops a = true ->
  exists x : Big,
    _bigNthRoot ops a root
    = Return (SBig (BigNumber_parse ops (toPrecision ops x (precision ops)))).
Proof.
  unfold _bigNthRoot, big_parity_fails, big_root_abs. intros H1 H2 H3 H4.
  rewrite H1, H2, H3, H4. simpl. eexists. reflexivity.
Qed.

End BigGeneralBranch.

(** C9, at the input where the claim as stated fails: the BigNumber [-0]
    has [isZero()] and [2] is a positive root, yet the routine does not
    return the number [0]: a negative zero has [isNegative()], the root is
    even, and the parity check throws before the zero-base branch. *)
Lemma C9_counterexample :
  isZero decimal_ops (BigNumber_new decimal_ops neg_zero) = true
  /\ isNegative decimal_ops (BigNumber_new decimal_ops two) = false
  /\ isZero decimal_ops (BigNumber_new decimal_ops two) = false
  /\ _bigNthRoot decimal_ops (BigNumber_new decimal_ops neg_zero)
                 (BigNumber_new decimal_ops two)
     = Throw InvalidRootParity
  /\ _bigNthRoot decimal_ops (BigNumber_new decimal_ops neg_zero)
                 (BigNumber_new decimal_ops two)
     <> Return (SNum zero).
Proof.
  repeat split; try reflexivity; vm_compute; discriminate.
Qed.

(** C9, amended. For every BigNumber base [a] with [isZero()] and every
    non-zero root on which the parity check passes (always so when [a] is
    not negative): for a positive root the result is the native number
    [0], not a BigNumber; for a negative root it is the BigNumber
    [Infinity] built by the clone with precision [precision + 2] and
    returned as it is, not read back from [toPrecision].  The results for a
    finite non-zero base are all read back from [toPrecision(precision)]. *)
Theorem C9_zero_base_result :
  forall (Big : Type) (ops : BigNumberOps Big) (a root : Big),
    isZero ops a = true ->
    isZero ops (big_root_abs ops root) = false ->
    (isNegative ops a = false \/ big_parity_fails ops a root = false) ->
    (isNegative ops root = false ->
     _bigNthRoot ops a root = Return (SNum zero))
    /\ (isNegative ops root = true ->
        _bigNthRoot ops a root =
          Return (SBig (clone_new ops (precision ops + 2) Infinity)))
    /\ (forall b : Big,
           big_parity_fails ops b root = false ->
           isZero ops b = false -> big_isFinite ops b = true ->
           exists x : Big,
             _bigNthRoot ops b root
             = Return (SBig (BigNumber_parse ops (toPrecision ops x (precision ops))))).
Proof.
  intros Big ops a root Ha Hroot Hpar.
  assert (Hp : big_parity_fails ops a root = false).
  { destruct Hpar as [Hn | Hp]; [| exact Hp].
    unfold big_parity_fails. rewrite Hn. reflexivity. }
  pose proof (_bigNthRoot_zero_base ops a root Hroot Hp Ha) as E.
  split; [| split].
  - intros Hs. rewrite Hs in E. exact E.
  - intros Hs. rewrite Hs in E. exact E.
  - intros b Hb Hz Hf. now apply _bigNthRoot_general.
Qed.

Lemma C9_witness :
  (_bigNthRoot decimal_ops (BigNumber_new decimal_ops zero) (Decimal.Fin false 2 0)
   = Return (SNum zero))
  /\ (_bigNthRoot decimal_ops (BigNumber_new decimal_ops zero) (Decimal.Fin true 2 0)
      = Return (SBig (clone_new decimal_ops (precision decimal_ops + 2) Infinity)))
  /\ (_bigNthRoot decimal_ops (BigNumber_new decimal_ops neg_zero) (Decimal.Fin false 3 0)
      = Return (SNum zero))
  /\ (exists x,
         _bigNthRoot decimal_ops (Decimal.Fin false 9 0) (Decimal.Fin false 2 0)
         = Return (SBig (BigNumber_parse decimal_ops
                           (toPrecision decimal_ops x (precision decimal_ops))))).
Proof.
  split; [| split; [| split]].
  - apply (C9_zero_base_result _ decimal_ops
             (BigNumber_new decimal_ops zero) (Decimal.Fin false 2 0));
      try reflexivity; left; reflexivity.
  - apply (C9_zero_base_result _ decimal_ops
             (BigNumber_new decimal_ops zero) (Decimal.Fin true 2 0));
      try reflexivity; left; reflexivity.
  - apply (C9_zero_base_result _ decimal_ops
             (BigNumber_new decimal_ops neg_zero) (Decimal.Fin false 3 0));
      try reflexivity; right; reflexivity.
  - apply (C9_zero_base_result _ decimal_ops
             (BigNumber_new decimal_ops zero) (Decimal.Fin false 2 0));
      try reflexivity; left; reflexivity.
Defined.

(** ** Odd integer roots *)

Lemma digits2_pos_bound (m : positive) : Zpos m < 2 ^ Zpos (digits2_pos m).
Proof.
  induction m as [p IH | p IH |]; simpl digits2_pos.
  - rewrite Pos2Z.inj_succ, Z.pow_succ_r by lia. lia.
  - rewrite Pos2Z.inj_succ, Z.pow_succ_r by lia. lia.
  - reflexivity.
Qed.

(** A well-formed number that is an odd integer has exponent at least
    [-52], and at exponent [-52] it is the number [1]. *)
Lemma odd_integer_exponent (m : positive) (e : Z) :
  valid (S754_finite false m e) = true ->
  e <= 0 ->
  Zpos m mod 2 ^ (- e) = 0 ->
  -52 <= e /\ (e = -52 -> m = 4503599627370496%positive).
Proof.
  intros Hv He Hmod.
  unfold valid, valid_binary, bounded, canonical_mantissa, fexp, SpecFloat.emin,
    prec, emax in Hv.
  apply andb_prop in Hv. destruct Hv as [Hc _]. apply Z.eqb_eq in Hc.
  pose proof (digits2_pos_bound m) as Hd.
  set (d := Zpos (digits2_pos m)) in *.
  assert (Hpow : 0 < 2 ^ (- e)) by (apply Z.pow_pos_nonneg; lia).
  assert (Hle : 2 ^ (- e) <= Zpos m).
  { apply Z.mod_divide in Hmod; [| lia]. apply Z.divide_pos_le in Hmod; lia. }
  assert (Hlt : - e < d).
  { apply (Z.pow_lt_mono_r_iff 2); [lia | unfold d; lia | lia]. }
  assert (Hd53 : d = 53) by lia.
  split; [lia |].
  intros ->. rewrite Hd53 in Hd. simpl in Hle, Hmod.
  apply Z.mod_divide in Hmod; [| lia]. destruct Hmod as [k Hk].
  change (2 ^ 53) with 9007199254740992 in Hd.
  change (2 ^ 52) with 4503599627370496 in Hle, Hk.
  assert (k = 1) by lia. subst k. lia.
Qed.

Lemma odd_integer_rem_two (r : number) :
  valid r = true ->
  is_odd_integer r = true ->
  strict_eq (rem (abs r) two) one = true.
Proof.
  intros Hv Hodd.
  destruct r as [s | s | | s m e]; try discriminate.
  destruct s; [discriminate |].
  simpl in Hodd.
  apply andb_prop in Hodd. destruct Hodd as [Hodd Hv2].
  apply andb_prop in Hodd. destruct Hodd as [He Hmod].
  apply Z.leb_le in He. apply Z.eqb_eq in Hmod.
  destruct (odd_integer_exponent m e Hv He Hmod) as [Hlow Hone].
  destruct (Z.eq_dec e (-52)) as [-> | Hne].
  - rewrite (Hone eq_refl). reflexivity.
  - assert (Hpow : 0 < 2 ^ (- e)) by (apply Z.pow_pos_nonneg; lia).
    pose proof (Z.div_mod (Zpos m) (2 ^ (- e)) ltac:(lia)) as Hdm.
    rewrite Hmod, Z.add_0_r in Hdm.
    set (v := Zpos m / 2 ^ (- e)) in *.
    rewrite Z.odd_spec in Hv2. destruct Hv2 as [k Hk].
    assert (Hk0 : 0 <= k) by nia.
    unfold rem, abs, SFabs, two.
    replace (Z.min e (-51)) with (-51) by lia.
    replace (-51 - -51) with 0 by lia. rewrite Z.mul_1_r.
    assert (HN : Zpos m * 2 ^ (e - -51) = 2251799813685248 + k * 4503599627370496).
    { rewrite Hdm, Hk.
      replace (2 ^ (- e) * (2 * k + 1) * 2 ^ (e - -51))
        with ((2 * k + 1) * (2 ^ (- e) * 2 ^ (e - -51))) by ring.
      rewrite <- Z.pow_add_r by lia.
      replace (- e + (e - -51)) with 51 by lia.
      change (2 ^ 51) with 2251799813685248. lia. }
    rewrite HN.
    rewrite Z.rem_mod_nonneg by lia.
    rewrite Z_mod_plus_full.
    reflexivity.
Qed.

(** ** Negative roots and non-finite bases on numbers *)

(** C7, at the input where the claim as stated fails: with base [NaN] and
    root [2] the routine succeeds and returns [NaN]; with root [-2] it
    returns [0], which is not [1 / NaN]. *)
Lemma C7_counterexample :
  lt zero two = true
  /\ _nthRoot Math_pow_ref JS.NaN two = Return JS.NaN
  /\ _nthRoot Math_pow_ref JS.NaN (neg two) = Return zero
  /\ div one JS.NaN = JS.NaN
  /\ strict_eq zero (div one JS.NaN) = false
  /\ _nthRoot Math_pow_ref JS.NaN (neg two) <> Return (div one JS.NaN).
Proof.
  repeat split; try reflexivity; vm_compute; discriminate.
Qed.

(** C7, amended. For every base other than [NaN] and every root [r > 0]
    on which [_nthRoot] returns [v], the call with root [-r] returns
    [1 / v]: the zero base gives [1 / 0 = +Infinity] and the base
    [+Infinity] gives [1 / Infinity = 0].  For the base [-Infinity] the
    returned zero is [+0] where [1 / v] is [-0]; the two are the same
    number under [===]. *)
Theorem C7_negative_root_inverts :
  forall (Math_pow : number -> number -> number) (a r v : number),
    a <> JS.NaN ->
    lt zero r = true ->
    _nthRoot Math_pow a r = Return v ->
    _nthRoot Math_pow a (neg r) = Return (div one v)
    \/ (a = neg_Infinity
        /\ _nthRoot Math_pow a (neg r) = Return zero
        /\ div one v = neg_zero).
Proof.
  intros Math_pow a r v Hnan Hr Hv.
  destruct (gt_zero_facts r Hr) as (Hl & Hz & Hn).
  unfold _nthRoot in *.
  rewrite Hn, neg_involutive. rewrite Hl in Hv. rewrite Hz in *.
  destruct (lt a zero && negb (strict_eq (rem (abs r) two) one)); [discriminate |].
  destruct (strict_eq a zero).
  - injection Hv as <-. left. reflexivity.
  - destruct a as [s | s | | s m e]; simpl in *.
    + injection Hv as <-. left. reflexivity.
    + injection Hv as <-. destruct s.
      * right. repeat split.
      * left. reflexivity.
    + now contradiction Hnan.
    + injection Hv as <-. left. reflexivity.
Qed.

Lemma C7_witness :
  (_nthRoot Math_pow_ref (of_Z 9) (neg two) = Return (div one (of_Z 3)))
  /\ (_nthRoot Math_pow_ref zero (neg (of_Z 3)) = Return (div one zero))
  /\ (_nthRoot Math_pow_ref Infinity (neg two) = Return (div one Infinity)).
Proof.
  split; [| split].
  - destruct (C7_negative_root_inverts Math_pow_ref (of_Z 9) two (of_Z 3))
      as [E | (E & _)]; [discriminate | reflexivity | reflexivity | exact E |
                         discriminate E].
  - destruct (C7_negative_root_inverts Math_pow_ref zero (of_Z 3) zero)
      as [E | (E & _)]; [discriminate | reflexivity | reflexivity | exact E |
                         discriminate E].
  - destruct (C7_negative_root_inverts Math_pow_ref Infinity two Infinity)
      as [E | (E & _)]; [discriminate | reflexivity | reflexivity | exact E |
                         discriminate E].
Defined.

(** C10. On numbers the branch for a non-finite base takes every
    non-finite base: for every root [r > 0], [_nthRoot(NaN, r)] returns
    [NaN] and [_nthRoot(NaN, -r)] returns [0]; and for every odd integer
    [r > 0], [_nthRoot(-Infinity, r)] passes the parity check and returns
    [-Infinity]. *)
Theorem C10_non_finite_base :
  forall (Math_pow : number -> number -> number) (r : number),
    lt zero r = true ->
    _nthRoot Math_pow JS.NaN r = Return JS.NaN
    /\ _nthRoot Math_pow JS.NaN (neg r) = Return zero
    /\ (valid r = true -> is_odd_integer r = true ->
        _nthRoot Math_pow neg_Infinity r = Return neg_Infinity).
Proof.
  intros Math_pow r Hr.
  destruct (gt_zero_facts r Hr) as (Hl & Hz & Hn).
  split; [| split].
  - rewrite (_nthRoot_NaN_base Math_pow r Hz), Hl. reflexivity.
  - rewrite _nthRoot_NaN_base by (now rewrite strict_eq_neg_zero).
    rewrite Hn. reflexivity.
  - intros Hv Hodd. unfold _nthRoot.
    rewrite Hl, Hz, (odd_integer_rem_two r Hv Hodd). reflexivity.
Qed.

Lemma C10_witness :
  _nthRoot Math_pow_ref JS.NaN two = Return JS.NaN
  /\ _nthRoot Math_pow_ref JS.NaN (neg two) = Return zero
  /\ _nthRoot Math_pow_ref neg_Infinity (of_Z 3) = Return neg_Infinity
  /\ _nthRoot Math_pow_ref neg_Infinity (of_Z 9007199254740991) = Return neg_Infinity.
Proof.
  split; [| split; [| split]].
  - apply (C10_non_finite_base Math_pow_ref two). reflexivity.
  - apply (C10_non_finite_base Math_pow_ref two). reflexivity.
  - apply (C10_non_finite_base Math_pow_ref (of_Z 3)); reflexivity.
  - apply (C10_non_finite_base Math_pow_ref (of_Z 9007199254740991)); reflexivity.
Defined.

(** ** The dispatcher *)

Lemma rmap_Return_inv {A B : Type} (f : A -> B) (r : result A) (v : B) :
  rmap f r = Return v -> exists u, r = Return u /\ v = f u.
Proof.
  destruct r as [u | e]; simpl; intros H; [| discriminate].
  injection H as <-. now exists u.
Qed.

(** [x < y] excludes [x === y]. *)
Lemma lt_not_strict_eq (x y : number) :
  lt x y = true -> strict_eq x y = false.
Proof.
  unfold lt, strict_eq, SFltb, SFeqb.
  destruct (SFcompare x y) as [[| |] |]; easy.
Qed.

Section DispatcherEquations.

Context {Big : Type}.
Variable ops : BigNumberOps Big.
Variable Math_pow : number -> number -> number.
Variable env : Collaborators Big.

(** On a pair of cells [nthRoot] is the callback the algorithms receive. *)
Lemma nthRoot_on_cells (a b : scalar Big) :
  nthRoot ops Math_pow env [VScalar a; VScalar b]
  = rmap VScalar (nthRoot_scalars ops Math_pow env a b).
Proof. reflexivity. Qed.

(** The one-argument form on a number is the two-argument form with root 2. *)
Lemma nthRoot_default_root (x : number) :
  nthRoot ops Math_pow env [VScalar (SNum x)]
  = nthRoot ops Math_pow env [VScalar (SNum x); VScalar (SNum two)].
Proof.
  simpl. unfold rmap. destruct (_nthRoot Math_pow x two); reflexivity.
Qed.

Lemma nthRoot_sparse_root_guard (x : value Big) (y : SparseMatrix Big) :
  density_is_one env y = false ->
  match x with
  | VMatrix _ => True
  | VScalar s => is_number_or_BigNumber s = true
  | VArray _ => False
  end ->
  nthRoot ops Math_pow env [x; VMatrix (Sparse y)] = Throw NonInvertibleZero.
Proof.
  intros Hd Hx. destruct x as [s | a | [d | s]]; simpl in *.
  - rewrite Hx. simpl. rewrite Hd. reflexivity.
  - contradiction.
  - rewrite Hd. reflexivity.
  - rewrite Hd. reflexivity.
Qed.

End DispatcherEquations.

(** C1. For every SparseMatrix [Y] with [density() < 1] on the root side,
    [nthRoot(X, Y)] throws 'Root must be non-zero' (NonInvertibleZero) for
    a SparseMatrix [X], for a DenseMatrix [X] and for a number or BigNumber
    in place of [X]; with [density() == 1] the call is the matching
    traversal: [algorithm06(X, Y, nthRoot)], [algorithm01(X, Y, nthRoot,
    false)] and [algorithm11(Y, s, nthRoot, true)]. *)
Theorem C1_sparse_root_density :
  forall (Big : Type) (ops : BigNumberOps Big)
         (Math_pow : number -> number -> number) (env : Collaborators Big)
         (Y : SparseMatrix Big),
    (lt (density env Y) one = true ->
     (forall X : SparseMatrix Big,
         nthRoot ops Math_pow env [VMatrix (Sparse X); VMatrix (Sparse Y)]
         = Throw NonInvertibleZero)
     /\ (forall X : DenseMatrix Big,
            nthRoot ops Math_pow env [VMatrix (Dense X); VMatrix (Sparse Y)]
            = Throw NonInvertibleZero)
     /\ (forall s : scalar Big,
            is_number_or_BigNumber s = true ->
            nthRoot ops Math_pow env [VScalar s; VMatrix (Sparse Y)]
            = Throw NonInvertibleZero))
    /\ (strict_eq (density env Y) one = true ->
        (forall X : SparseMatrix Big,
            nthRoot ops Math_pow env [VMatrix (Sparse X); VMatrix (Sparse Y)]
            = rmap VMatrix
                (algorithm06 env X Y (nthRoot_scalars ops Math_pow env)))
        /\ (forall X : DenseMatrix Big,
               nthRoot ops Math_pow env [VMatrix (Dense X); VMatrix (Sparse Y)]
               = rmap VMatrix
                   (algorithm01 env X Y (nthRoot_scalars ops Math_pow env) false))
        /\ (forall s : scalar Big,
               is_number_or_BigNumber s = true ->
               nthRoot ops Math_pow env [VScalar s; VMatrix (Sparse Y)]
               = rmap VMatrix
                   (algorithm11 env Y s (nthRoot_scalars ops Math_pow env) true))).
Proof.
  intros Big ops Math_pow env Y. split.
  - intros Hlt. pose proof (lt_not_strict_eq _ _ Hlt : density_is_one env Y = false) as Hd.
    repeat split.
    + intros X. now apply nthRoot_sparse_root_guard.
    + intros X. now apply nthRoot_sparse_root_guard.
    + intros s Hs. now apply nthRoot_sparse_root_guard.
  - intros Heq. pose proof (Heq : density_is_one env Y = true) as Hd.
    repeat split.
    + intros X. simpl. rewrite Hd. reflexivity.
    + intros X. simpl. rewrite Hd. reflexivity.
    + intros s Hs. simpl. rewrite Hs. simpl. rewrite Hd. reflexivity.
Qed.

Lemma C1_witness :
  (nthRoot_ref [VMatrix (Sparse (sparse_1x1 (of_Z 9))); VMatrix (Sparse sparse_four)]
   = Throw NonInvertibleZero
   /\ nthRoot_ref [VMatrix (Dense (dense_2x2 two two two two));
                   VMatrix (Sparse sparse_four)]
      = Throw NonInvertibleZero
   /\ nthRoot_ref [VScalar (SNum (of_Z 9)); VMatrix (Sparse sparse_four)]
      = Throw NonInvertibleZero)
  /\ (nthRoot_ref [VMatrix (Sparse (sparse_1x1 (of_Z 9)));
                   VMatrix (Sparse (sparse_1x1 two))]
      = Return (VMatrix (Sparse (sparse_1x1 (of_Z 3))))
      /\ nthRoot_ref [VMatrix (Dense (dense_1x1 (of_Z 9)));
                      VMatrix (Sparse (sparse_1x1 two))]
         = Return (VMatrix (Dense (dense_1x1 (of_Z 3))))
      /\ nthRoot_ref [VScalar (SNum (of_Z 9)); VMatrix (Sparse (sparse_1x1 two))]
         = Return (VMatrix (Sparse (sparse_1x1 (of_Z 3))))).
Proof.
  unfold nthRoot_ref. split.
  - destruct (C1_sparse_root_density _ decimal_ops Math_pow_ref (spec_env decimal_ops) sparse_four)
      as [Hlt _].
    destruct (Hlt ltac:(reflexivity)) as (H1 & H2 & H3).
    split; [apply H1 | split; [apply H2 | apply H3; reflexivity]].
  - split; [| split].
    + destruct (C1_sparse_root_density _ decimal_ops Math_pow_ref (spec_env decimal_ops)
                  (sparse_1x1 two)) as [_ Heq].
      destruct (Heq ltac:(reflexivity)) as (H1 & _ & _).
      rewrite H1. reflexivity.
    + destruct (C1_sparse_root_density _ decimal_ops Math_pow_ref (spec_env decimal_ops)
                  (sparse_1x1 two)) as [_ Heq].
      destruct (Heq ltac:(reflexivity)) as (_ & H2 & _).
      rewrite H2. reflexivity.
    + destruct (C1_sparse_root_density _ decimal_ops Math_pow_ref (spec_env decimal_ops)
                  (sparse_1x1 two)) as [_ Heq].
      destruct (Heq ltac:(reflexivity)) as (_ & _ & H3).
      rewrite H3 by reflexivity. reflexivity.
Defined.


(** * Further properties of the routines *)

(** ** When [_nthRoot] throws *)

(** X1. [_nthRoot] throws 'Root must be non-zero' exactly when the root
    is zero, throws 'Root must be odd when a is negative.' exactly when
    the root is not zero, the base is negative and [|root| % 2] is not 1,
    and returns in every other case; it throws nothing else. *)
Theorem X1_nthRoot_outcomes :
  forall (Math_pow : number -> number -> number) (a r : number),
    (_nthRoot Math_pow a r = Throw InvalidRoot <-> strict_eq r zero = true)
    /\ (_nthRoot Math_pow a r = Throw InvalidRootParity
        <-> strict_eq r zero = false
            /\ lt a zero = true
            /\ strict_eq (rem (abs r) two) one = false)
    /\ ((exists v, _nthRoot Math_pow a r = Return v)
        <-> strict_eq r zero = false
            /\ (lt a zero = false \/ strict_eq (rem (abs r) two) one = true))
    /\ (forall e, _nthRoot Math_pow a r = Throw e ->
                  e = InvalidRoot \/ e = InvalidRootParity).
Proof.
  intros Math_pow a r.
  assert (Hne : InvalidRoot <> InvalidRootParity) by discriminate.
  destruct (strict_eq r zero) eqn:Hz.
  - rewrite (_nthRoot_zero_root Math_pow a r Hz).
    split; [| split; [| split]].
    + split; reflexivity.
    + split; [intros E; injection E as E; discriminate E | intros (E & _); discriminate].
    + split; [intros (v & E); discriminate | intros (E & _); discriminate].
    + intros e E. injection E as <-. now left.
  - destruct (lt a zero && negb (strict_eq (rem (abs r) two) one)) eqn:Hpar.
    + apply andb_prop in Hpar. destruct Hpar as [Ha Hodd].
      apply negb_true_iff in Hodd.
      rewrite (_nthRoot_parity Math_pow a r Ha Hz Hodd).
      split; [| split; [| split]].
      * split; [intros E; injection E as E; discriminate E | discriminate].
      * split; [intros _; now repeat split | reflexivity].
      * split; [intros (v & E); discriminate |].
        intros (_ & [E | E]); [rewrite Ha in E | rewrite Hodd in E]; discriminate.
      * intros e E. injection E as <-. now right.
    + assert (E : exists v, _nthRoot Math_pow a r = Return v).
      { unfold _nthRoot.
        rewrite (root_abs_not_zero r Hz), abs_root_abs, Hpar.
        destruct (strict_eq a zero); [eexists; reflexivity |].
        destruct (negb (isFinite a)); eexists; reflexivity. }
      destruct E as (v & E). rewrite E.
      split; [| split; [| split]].
      * split; discriminate.
      * split; [discriminate |]. intros (_ & Ha & Hodd).
        rewrite Ha, Hodd in Hpar. discriminate.
      * split; [| intros _; now exists v].
        intros _. split; [reflexivity |].
        destruct (lt a zero); [right | now left].
        simpl in Hpar. now apply negb_false_iff in Hpar.
      * discriminate.
Qed.

(** ** The parity test and odd integers *)

(** Rounding a mantissa that is already canonical changes nothing. *)
Lemma binary_round_aux_canonical (s : bool) (m : positive) (e : Z) :
  canonical_mantissa prec emax m e = true ->
  e <= emax - prec ->
  binary_round_aux prec emax s (Zpos m) e loc_Exact = S754_finite s m e.
Proof.
  intros Hc He. unfold canonical_mantissa in Hc. apply Z.eqb_eq in Hc.
  unfold binary_round_aux, shr_fexp. simpl Zdigits2.
  rewrite Hc, Z.sub_diag.
  cbn [shr shr_record_of_loc shr_m loc_of_shr_record round_nearest_even Zdigits2].
  rewrite Hc, Z.sub_diag.
  cbn [shr shr_record_of_loc shr_m].
  apply Z.leb_le in He. rewrite He. reflexivity.
Qed.

Lemma binary_round_canonical (s : bool) (m : positive) (e : Z) :
  canonical_mantissa prec emax m e = true ->
  e <= emax - prec ->
  binary_round prec emax s m e = S754_finite s m e.
Proof.
  intros Hc He. unfold binary_round, shl_align.
  pose proof Hc as Hc'. unfold canonical_mantissa in Hc'. apply Z.eqb_eq in Hc'.
  rewrite Hc', Z.sub_diag. now apply binary_round_aux_canonical.
Qed.

Lemma digits2_pos_iter_xO (p q : positive) :
  digits2_pos (Pos.iter xO p q) = (digits2_pos p + q)%positive.
Proof.
  induction q as [| q IH] using Pos.peano_ind.
  - simpl. now rewrite Pos.add_1_r.
  - rewrite Pos.iter_succ. simpl. rewrite IH. now rewrite Pos.add_succ_r.
Qed.

Lemma digits2_pos_lower (m : positive) : 2 ^ (Zpos (digits2_pos m) - 1) <= Zpos m.
Proof.
  induction m as [p IH | p IH |]; simpl digits2_pos.
  - rewrite Pos2Z.inj_succ. replace (Z.succ (Zpos (digits2_pos p)) - 1)
      with (Z.succ (Zpos (digits2_pos p) - 1)) by lia.
    rewrite Z.pow_succ_r by lia. lia.
  - rewrite Pos2Z.inj_succ. replace (Z.succ (Zpos (digits2_pos p)) - 1)
      with (Z.succ (Zpos (digits2_pos p) - 1)) by lia.
    rewrite Z.pow_succ_r by lia. lia.
  - reflexivity.
Qed.

(** Equality with the number 1. *)
Lemma strict_eq_one_inv (m : positive) (e : Z) :
  strict_eq (S754_finite false m e) one = true ->
  e = -52 /\ m = 4503599627370496%positive.
Proof.
  unfold strict_eq, SFeqb, one, SFcompare.
  destruct (e ?= -52) eqn:He; try discriminate.
  apply Z.compare_eq in He.
  destruct (Pos.compare_cont Eq m 4503599627370496) eqn:Hm; try discriminate.
  apply Pos.compare_eq in Hm. auto.
Qed.

(** A multiple of [2 ^ -51] below 2 that rounds to 1 is [2 ^ 51] units. *)
Lemma normalize_one_inv (R : Z) :
  0 <= R < 4503599627370496 ->
  strict_eq (binary_normalize prec emax R (-51) false) one = true ->
  R = 2251799813685248.
Proof.
  intros HR H. destruct R as [| p | p]; [discriminate | | lia].
  unfold binary_normalize, binary_round, shl_align in H.
  pose proof (digits2_pos_bound p) as Hup.
  pose proof (digits2_pos_lower p) as Hlow.
  set (d := Zpos (digits2_pos p)) in *.
  assert (Hd1 : 1 <= d) by (unfold d; lia).
  assert (Hd52 : d <= 52).
  { destruct (Z_le_gt_dec d 52) as [|Hgt]; [assumption |].
    assert (2 ^ 52 <= 2 ^ (d - 1)) by (apply Z.pow_le_mono_r; lia).
    change (2 ^ 52) with 4503599627370496 in *. lia. }
  assert (Hf : fexp prec emax (d + -51) = d - 104).
  { unfold fexp, SpecFloat.emin, prec, emax. lia. }
  rewrite Hf in H.
  assert (Hsub : d - 104 - -51 = Zneg (Z.to_pos (53 - d))).
  { pose proof (Z2Pos.id (53 - d) ltac:(lia)) as Hid.
    pose proof (Pos2Z.opp_pos (Z.to_pos (53 - d))) as Hopp. lia. }
  rewrite Hsub in H.
  set (q := Z.to_pos (53 - d)) in *.
  assert (Hq : Zpos q = 53 - d) by (unfold q; rewrite Z2Pos.id; lia).
  assert (Hdig : Zpos (digits2_pos (Pos.iter xO p q)) = 53).
  { rewrite digits2_pos_iter_xO, Pos2Z.inj_add. fold d. lia. }
  rewrite binary_round_aux_canonical in H.
  - apply strict_eq_one_inv in H. destruct H as [He Hm].
    assert (d = 52) by lia.
    assert (q = 1%positive) by lia. subst q.
    rewrite H0 in Hm. simpl in Hm. injection Hm as ->. reflexivity.
  - unfold canonical_mantissa. rewrite Hdig. apply Z.eqb_eq.
    unfold fexp, SpecFloat.emin, prec, emax. lia.
  - unfold prec, emax. lia.
Qed.

(** A well-formed number passes [|r| % 2 === 1] only if it is an odd
    integer. *)
Lemma rem_two_one_odd_integer (r : number) :
  valid r = true ->
  strict_eq (rem (abs r) two) one = true ->
  is_odd_integer (abs r) = true.
Proof.
  intros Hv H.
  destruct r as [s | s | | s m e]; try discriminate.
  simpl abs in *. unfold valid, valid_binary, bounded in Hv.
  apply andb_prop in Hv. destruct Hv as [Hc Hb]. apply Z.leb_le in Hb.
  unfold rem, two in H.
  destruct (Z_le_gt_dec e (-52)) as [Hlow | Hhigh].
  - (* below 2: the remainder is the number itself *)
    replace (Z.min e (-51)) with e in H by lia.
    rewrite Z.sub_diag, Z.mul_1_r in H.
    pose proof (digits2_pos_bound m) as Hup.
    assert (Hd : Zpos (digits2_pos m) <= 53).
    { unfold canonical_mantissa in Hc. apply Z.eqb_eq in Hc.
      unfold fexp, SpecFloat.emin, prec, emax in Hc. lia. }
    assert (Hm : Zpos m < 4503599627370496 * 2 ^ (-51 - e)).
    { assert (2 ^ Zpos (digits2_pos m) <= 2 ^ 53) by (apply Z.pow_le_mono_r; lia).
      assert (2 ^ 1 <= 2 ^ (-51 - e)) by (apply Z.pow_le_mono_r; lia).
      change (2 ^ 53) with 9007199254740992 in *. change (2 ^ 1) with 2 in *. lia. }
    rewrite Z.rem_small in H by lia.
    unfold cond_Zopp in H. unfold binary_normalize in H.
    rewrite binary_round_canonical in H by assumption.
    apply strict_eq_one_inv in H. destruct H as [-> ->]. reflexivity.
  - replace (Z.min e (-51)) with (-51) in H by lia.
    replace (-51 - -51) with 0 in H by lia. rewrite Z.mul_1_r in H.
    unfold cond_Zopp in H.
    assert (Hpos : 0 <= Zpos m * 2 ^ (e - -51)).
    { apply Z.mul_nonneg_nonneg; [lia | apply Z.pow_nonneg; lia]. }
    rewrite Z.rem_mod_nonneg in H by lia.
    pose proof (Z.mod_pos_bound (Zpos m * 2 ^ (e - -51)) 4503599627370496
                                ltac:(lia)) as Hbound.
    apply normalize_one_inv in H; [| exact Hbound].
    pose proof (Z.div_mod (Zpos m * 2 ^ (e - -51)) 4503599627370496 ltac:(lia))
      as Hdm.
    rewrite H in Hdm.
    set (k := Zpos m * 2 ^ (e - -51) / 4503599627370496) in *.
    destruct (Z_le_gt_dec e 0) as [He0 | He0].
    + (* m * 2^(e+51) = 2^51 * (2k+1) with e + 51 <= 51 *)
      assert (Hp : 2 ^ 51 = 2 ^ (e - -51) * 2 ^ (- e)).
      { rewrite <- Z.pow_add_r by lia. f_equal. lia. }
      change (2 ^ 51) with 2251799813685248 in Hp.
      assert (Hpe : 0 < 2 ^ (e - -51)) by (apply Z.pow_pos_nonneg; lia).
      assert (Hpn : 0 < 2 ^ (- e)) by (apply Z.pow_pos_nonneg; lia).
      assert (Hm : Zpos m = 2 ^ (- e) * (2 * k + 1)).
      { apply (Z.mul_cancel_l _ _ (2 ^ (e - -51))); [lia |]. nia. }
      simpl. apply andb_true_intro. split; [apply andb_true_intro; split |].
      * now apply Z.leb_le.
      * apply Z.eqb_eq. rewrite Hm, Z.mul_comm. now apply Z.mod_mul; lia.
      * rewrite Hm, Z.mul_comm, Z.div_mul by lia.
        rewrite Z.odd_spec. now exists k.
    + (* an even integer: the remainder is 0, not 2^51 units *)
      exfalso.
      assert (Hp : 2 ^ (e - -51) = 4503599627370496 * 2 ^ (e - 1)).
      { change 4503599627370496 with (2 ^ 52).
        rewrite <- Z.pow_add_r by lia. f_equal. lia. }
      rewrite Hp in Hdm.
      assert (Hdiv : (4503599627370496 | 2251799813685248)).
      { exists (Zpos m * 2 ^ (e - 1) - k). lia. }
      destruct Hdiv as [c Hcq]. lia.
Qed.

Lemma valid_abs (r : number) : valid (abs r) = valid r.
Proof. destruct r; reflexivity. Qed.

Lemma abs_idempotent (r : number) : abs (abs r) = abs r.
Proof. destruct r; reflexivity. Qed.

(** ** Negative base and the parity of the root *)

Section CubeRootOfEight.

Local Open Scope R_scope.

Lemma ln_2_lt_1 : ln 2 < 1.
Proof.
  rewrite <- (ln_exp 1). apply ln_increasing; [lra |].
  pose proof (exp_ineq1 1 ltac:(lra)). lra.
Qed.

(** The value [Math_pow_cbrt] gives at (8, [third]) is the correctly
    rounded one: [third] is [6004799503160661 * 2 ^ -54], and 8 to that
    power lies strictly between [2 - 2 ^ -53], the midpoint of 2 and the
    double below it, and 2. *)
Lemma pow_8_third_rounds_to_two :
  third = S754_finite false 6004799503160661 (-54)
  /\ 2 - / 2 ^ 53 < Rpower 8 (6004799503160661 / 2 ^ 54) < 2.
Proof.
  split; [reflexivity |].
  assert (H2 : 0 < ln 2).
  { rewrite <- ln_1. apply ln_increasing; lra. }
  pose proof ln_2_lt_1 as H1.
  assert (E8 : ln 8 = 3 * ln 2).
  { replace 8 with (2 ^ 3) by lra. rewrite ln_pow by lra. simpl. lra. }
  assert (P54 : 2 ^ 54 = 18014398509481984) by (simpl; lra).
  assert (P53 : 2 ^ 53 = 9007199254740992) by (simpl; lra).
  rewrite P54, P53.
  set (t := / 18014398509481984).
  assert (Ht : 0 < t) by (unfold t; lra).
  assert (E : 6004799503160661 / 18014398509481984 * ln 8 = ln 2 + - (t * ln 2)).
  { rewrite E8. unfold t. lra. }
  unfold Rpower. rewrite E, exp_plus, exp_ln by lra.
  assert (Hp : 0 < t * ln 2) by (apply Rmult_lt_0_compat; assumption).
  assert (Hlt : t * ln 2 < t).
  { rewrite <- (Rmult_1_r t) at 2. apply Rmult_lt_compat_l; assumption. }
  pose proof (exp_ineq1 (- (t * ln 2)) ltac:(lra)) as Hlow.
  assert (Hup : exp (- (t * ln 2)) < 1).
  { rewrite <- exp_0. apply exp_increasing. lra. }
  assert (Ht2 : 2 * t = / 9007199254740992) by (unfold t; lra).
  rewrite <- Ht2. lra.
Qed.

End CubeRootOfEight.

(** C5. For every negative base and every root whose absolute value is
    not an odd integer, the routine throws 'Root must be odd when a is
    negative.' (InvalidRootParity), on numbers and on BigNumbers; the
    root is taken to be non-zero, a zero root being rejected as
    InvalidRoot for every base.  On numbers this is stated both with the
    test the code makes, [|r| % 2 === 1], and for the roots that are not
    odd integers.  [_nthRoot(-4, 2)] throws the parity error, and
    [_nthRoot(-8, 3)] returns [-2] where [Math.pow(8, 1/3)] is [2]. *)
Theorem C5_parity_error :
  (forall (Math_pow : number -> number -> number) (a r : number),
      lt a zero = true ->
      strict_eq r zero = false ->
      strict_eq (rem (abs r) two) one = false ->
      _nthRoot Math_pow a r = Throw InvalidRootParity)
  /\ (forall (Math_pow : number -> number -> number) (a r : number),
         valid r = true ->
         lt a zero = true ->
         strict_eq r zero = false ->
         is_odd_integer (abs r) = false ->
         _nthRoot Math_pow a r = Throw InvalidRootParity)
  /\ (forall (Big : Type) (ops : BigNumberOps Big) (a root : Big),
         isNegative ops a = true ->
         isZero ops (big_root_abs ops root) = false ->
         big_equals ops (big_mod ops (big_abs ops (big_root_abs ops root)) two) one
           = false ->
         _bigNthRoot ops a root = Throw InvalidRootParity)
  /\ (forall Math_pow : number -> number -> number,
         _nthRoot Math_pow (of_Z (-4)) two = Throw InvalidRootParity)
  /\ (forall Math_pow : number -> number -> number,
         Math_pow (of_Z 8) (div one (of_Z 3)) = two ->
         _nthRoot Math_pow (of_Z (-8)) (of_Z 3) = Return (of_Z (-2))).
Proof.
  split; [| split; [| split; [| split]]].
  - intros Math_pow a r Ha Hr Hodd. now apply _nthRoot_parity.
  - intros Math_pow a r Hv Ha Hr Hodd. apply _nthRoot_parity; [exact Ha | exact Hr |].
    destruct (strict_eq (rem (abs r) two) one) eqn:E; [| reflexivity].
    apply rem_two_one_odd_integer in E; [| exact Hv]. congruence.
  - intros Big ops a root Ha Hroot Hodd. apply _bigNthRoot_parity; [exact Hroot |].
    unfold big_parity_fails. rewrite Ha, Hodd. reflexivity.
  - intros Math_pow. reflexivity.
  - intros Math_pow Hpow.
    assert (E : _nthRoot Math_pow (of_Z (-8)) (of_Z 3)
                = Return (neg (Math_pow (of_Z 8) (div one (of_Z 3)))))
      by reflexivity.
    rewrite E, Hpow. reflexivity.
Qed.

Lemma C5_witness :
  _nthRoot Math_pow_cbrt (of_Z (-4)) (of_Z (-2)) = Throw InvalidRootParity
  /\ _nthRoot Math_pow_cbrt neg_Infinity half = Throw InvalidRootParity
  /\ _bigNthRoot decimal_ops (Decimal.Fin true 4 0) (Decimal.Fin false 2 0)
     = Throw InvalidRootParity
  /\ _bigNthRoot decimal_ops (Decimal.Fin true 8 0) (Decimal.Fin true 15 (-1))
     = Throw InvalidRootParity
  /\ _nthRoot Math_pow_cbrt (of_Z (-8)) (of_Z 3) = Return (of_Z (-2)).
Proof.
  destruct C5_parity_error as (Hn & Hi & Hb & _ & H8).
  split; [| split; [| split; [| split]]].
  - apply Hn; reflexivity.
  - apply Hi; reflexivity.
  - apply (Hb _ decimal_ops); reflexivity.
  - apply (Hb _ decimal_ops); reflexivity.
  - apply H8. reflexivity.
Defined.

Lemma odd_integer_not_zero (r : number) :
  is_odd_integer (abs r) = true -> strict_eq r zero = false.
Proof. destruct r as [s | s | | s m e]; try discriminate. now destruct s. Qed.

Lemma odd_integer_abs_rem_two (r : number) :
  valid r = true ->
  is_odd_integer (abs r) = true ->
  strict_eq (rem (abs r) two) one = true.
Proof.
  intros Hv Hodd. rewrite <- (abs_idempotent r).
  apply odd_integer_rem_two; [now rewrite valid_abs | exact Hodd].
Qed.

(** X2. For a negative base and a well-formed root, [_nthRoot] returns
    exactly when the absolute value of the root is an odd integer; for
    every other root except zero it throws the parity error. *)
Theorem X2_negative_base_odd_roots :
  forall (Math_pow : number -> number -> number) (a r : number),
    valid r = true ->
    lt a zero = true ->
    ((exists v, _nthRoot Math_pow a r = Return v)
     <-> is_odd_integer (abs r) = true)
    /\ (is_odd_integer (abs r) = false ->
        strict_eq r zero = false ->
        _nthRoot Math_pow a r = Throw InvalidRootParity).
Proof.
  intros Math_pow a r Hv Ha.
  assert (Hret : strict_eq r zero = false ->
                 strict_eq (rem (abs r) two) one = true ->
                 exists v, _nthRoot Math_pow a r = Return v).
  { intros Hz Hodd. unfold _nthRoot.
    rewrite (root_abs_not_zero r Hz), Ha, abs_root_abs, Hodd. simpl.
    destruct (strict_eq a zero); [eexists; reflexivity |].
    destruct (negb (isFinite a)); eexists; reflexivity. }
  split; [split |].
  - intros (v & E).
    destruct (strict_eq r zero) eqn:Hz.
    + rewrite (_nthRoot_zero_root Math_pow a r Hz) in E. discriminate.
    + destruct (strict_eq (rem (abs r) two) one) eqn:Hodd.
      * now apply rem_two_one_odd_integer.
      * rewrite (_nthRoot_parity Math_pow a r Ha Hz Hodd) in E. discriminate.
  - intros Hodd. apply Hret.
    + now apply odd_integer_not_zero.
    + now apply odd_integer_abs_rem_two.
  - intros Hodd Hz. apply _nthRoot_parity; [exact Ha | exact Hz |].
    destruct (strict_eq (rem (abs r) two) one) eqn:E; [| reflexivity].
    apply rem_two_one_odd_integer in E; [| exact Hv]. congruence.
Qed.

Lemma X2_witness :
  (exists v, _nthRoot Math_pow_ref (of_Z (-8)) (of_Z (-3)) = Return v)
  /\ _nthRoot Math_pow_ref (of_Z (-8)) (of_Z 6) = Throw InvalidRootParity
  /\ _nthRoot Math_pow_ref neg_Infinity (div one (of_Z 3)) = Throw InvalidRootParity.
Proof.
  split; [| split].
  - apply (X2_negative_base_odd_roots Math_pow_ref (of_Z (-8)) (of_Z (-3)));
      reflexivity.
  - apply (X2_negative_base_odd_roots Math_pow_ref (of_Z (-8)) (of_Z 6));
      reflexivity.
  - apply (X2_negative_base_odd_roots Math_pow_ref neg_Infinity
             (div one (of_Z 3))); reflexivity.
Defined.

(** ** Odd roots are odd functions *)

Lemma binary_round_aux_opp (s : bool) (m e : Z) (l : location) :
  binary_round_aux prec emax (negb s) m e l
  = SFopp (binary_round_aux prec emax s m e l).
Proof.
  unfold binary_round_aux.
  destruct (shr_fexp prec emax m e l) as [mrs' e'].
  destruct (shr_fexp prec emax _ e' loc_Exact) as [mrs'' e''].
  destruct (shr_m mrs''); try reflexivity.
  destruct (e'' <=? emax - prec); reflexivity.
Qed.

(** [1 / -x] is [-(1 / x)]. *)
Lemma div_one_neg (x : number) : div one (neg x) = neg (div one x).
Proof.
  destruct x as [s | s | | s m e]; try reflexivity.
  unfold div, neg, one, SFopp, SFdiv.
  destruct (SFdiv_core_binary prec emax _ _ _ _) as [[mz ez] lz].
  apply (binary_round_aux_opp s).
Qed.

(** X3. For a finite non-zero base and a well-formed root whose absolute
    value is an odd integer, negating the base negates the result:
    [_nthRoot(-a, r) = -_nthRoot(a, r)], for positive and negative roots. *)
Theorem X3_odd_root_odd_function :
  forall (Math_pow : number -> number -> number) (a r : number),
    isFinite a = true ->
    strict_eq a zero = false ->
    valid r = true ->
    is_odd_integer (abs r) = true ->
    _nthRoot Math_pow (neg a) r = rmap neg (_nthRoot Math_pow a r).
Proof.
  intros Math_pow a r Hfin Hnz Hv Hodd.
  pose proof (odd_integer_not_zero r Hodd) as Hz.
  pose proof (odd_integer_abs_rem_two r Hv Hodd) as Hpar.
  destruct a as [s | s | | s m e]; try discriminate.
  unfold _nthRoot.
  rewrite (root_abs_not_zero r Hz), abs_root_abs, Hpar.
  rewrite !andb_false_r.
  replace (strict_eq (neg (S754_finite s m e)) zero) with false
    by (now destruct s).
  replace (strict_eq (S754_finite s m e) zero) with false by (now destruct s).
  replace (abs (neg (S754_finite s m e))) with (abs (S754_finite s m e))
    by reflexivity.
  cbn [isFinite neg SFopp negb].
  set (x := Math_pow (abs (S754_finite s m e)) _).
  replace (lt (S754_finite (negb s) m e) zero) with (negb s) by (now destruct s).
  replace (lt (S754_finite s m e) zero) with s by (now destruct s).
  unfold rmap, bind.
  destruct s, (lt r zero); cbn [negb];
    rewrite ?div_one_neg, ?neg_involutive; reflexivity.
Qed.

Lemma X3_witness :
  _nthRoot Math_pow_ref (neg (of_Z 9)) one = rmap neg (_nthRoot Math_pow_ref (of_Z 9) one)
  /\ _nthRoot Math_pow_ref (neg (of_Z (-9))) (of_Z (-1))
     = rmap neg (_nthRoot Math_pow_ref (of_Z (-9)) (of_Z (-1))).
Proof.
  split.
  - apply (X3_odd_root_odd_function Math_pow_ref (of_Z 9) one); reflexivity.
  - apply (X3_odd_root_odd_function Math_pow_ref (of_Z (-9)) (of_Z (-1)));
      reflexivity.
Defined.

(** ** What [_bigNthRoot] returns *)

(** X5. A BigNumber call answers with a BigNumber, with one exception:
    the native number it can return is [0], and it returns it only for a
    base with [isZero()] and a root that is not negative.  It never
    returns a Complex. *)
Theorem X5_bigNthRoot_result_type :
  forall (Big : Type) (ops : BigNumberOps Big) (a root : Big) (v : scalar Big),
    _bigNthRoot ops a root = Return v ->
    match v with
    | SNum x => x = zero /\ isZero ops a = true /\ isNegative ops root = false
    | SBig _ => True
    | SComplex _ => False
    end.
Proof.
  intros Big ops a root v E.
  destruct (isZero ops (big_root_abs ops root)) eqn:Hz.
  { rewrite (_bigNthRoot_zero_root ops a root Hz) in E. discriminate. }
  destruct (big_parity_fails ops a root) eqn:Hpar.
  { rewrite (_bigNthRoot_parity ops a root Hz Hpar) in E. discriminate. }
  destruct (isZero ops a) eqn:Ha.
  - rewrite (_bigNthRoot_zero_base ops a root Hz Hpar Ha) in E.
    destruct (isNegative ops root); injection E as <-; [exact I | now repeat split].
  - destruct (big_isFinite ops a) eqn:Hf.
    + destruct (_bigNthRoot_general ops a root Hz Hpar Ha Hf) as (x & E').
      rewrite E' in E. injection E as <-. exact I.
    + rewrite (_bigNthRoot_infinite_base ops a root Hz Hpar Ha Hf) in E.
      injection E as <-. exact I.
Qed.

Lemma X5_witness :
  match SNum zero : scalar Decimal.t with
  | SNum x =>
      x = zero
      /\ isZero decimal_ops (Decimal.Fin false 0 0) = true
      /\ isNegative decimal_ops (Decimal.Fin false 3 0) = false
  | SBig _ => True
  | SComplex _ => False
  end.
Proof.
  apply (X5_bigNthRoot_result_type _ decimal_ops
           (Decimal.Fin false 0 0) (Decimal.Fin false 3 0) (SNum zero)).
  reflexivity.
Defined.

(** ** The dispatcher beyond the guarded signatures *)

(** X6. The one-argument call is the two-argument call with root 2: the
    number [2] for a number, a Complex, an array or a matrix, and
    [new BigNumber(2)] for a BigNumber. *)
Theorem X6_one_argument_form :
  forall (Big : Type) (ops : BigNumberOps Big)
         (Math_pow : number -> number -> number) (env : Collaborators Big)
         (x : value Big),
    nthRoot ops Math_pow env [x]
    = nthRoot ops Math_pow env
        [x; match x with
            | VScalar (SBig _) => VScalar (SBig (BigNumber_new ops two))
            | _ => VScalar (SNum two)
            end].
Proof.
  intros Big ops Math_pow env x.
  destruct x as [[a | b | z] | arr | m]; simpl; try reflexivity.
  unfold rmap, bind. destruct (_nthRoot Math_pow a two); reflexivity.
Qed.

(** X7. Whenever [nthRoot] returns on two operands that a listed
    signature takes, the result is a matrix if either operand is a
    matrix, else an array if either operand is an array, else a scalar:
    [nthRoot(array, matrix)] is a matrix and [nthRoot(array, 2)] an array. *)
Theorem X7_result_kind :
  forall (Big : Type) (ops : BigNumberOps Big)
         (Math_pow : number -> number -> number) (env : Collaborators Big)
         (x y r : value Big),
    (kind_of x = ScalarKind /\ kind_of y = ScalarKind
     \/ broadcastable x = true /\ broadcastable y = true) ->
    nthRoot ops Math_pow env [x; y] = Return r ->
    kind_of r = join_kind (kind_of x) (kind_of y).
Proof.
  intros Big ops Math_pow env x y r Hxy E. simpl in E.
  destruct x as [sx | ax | mx], y as [sy | ay | my]; simpl in *;
    try (apply rmap_Return_inv in E; destruct E as (u & _ & ->); reflexivity).
  - destruct Hxy as [[_ H] | [H _]]; [discriminate |].
    rewrite H in E. apply rmap_Return_inv in E. destruct E as (u & _ & ->).
    reflexivity.
  - destruct Hxy as [[_ H] | [H _]]; [discriminate |].
    rewrite H in E. apply rmap_Return_inv in E. destruct E as (u & _ & ->).
    reflexivity.
  - destruct Hxy as [[H _] | [_ H]]; [discriminate |].
    rewrite H in E. apply rmap_Return_inv in E. destruct E as (u & _ & ->).
    reflexivity.
  - destruct Hxy as [[H _] | [_ H]]; [discriminate |].
    rewrite H in E. apply rmap_Return_inv in E. destruct E as (u & _ & ->).
    reflexivity.
Qed.

Lemma X7_witness :
  kind_of (VArray (Seq [Leaf (SNum (of_Z 3) : scalar Decimal.t); Leaf (SNum two)]))
  = ArrayKind
  /\ kind_of (VMatrix (Dense (dense_1x1 (of_Z 3)))) = MatrixKind.
Proof.
  split.
  - exact (X7_result_kind _ decimal_ops Math_pow_ref (spec_env decimal_ops)
             (VArray (Seq [Leaf (SNum (of_Z 9)); Leaf (SNum (of_Z 4))]))
             (VScalar (SNum two))
             (VArray (Seq [Leaf (SNum (of_Z 3)); Leaf (SNum two)]))
             (or_intror (conj eq_refl eq_refl)) eq_refl).
  - exact (X7_result_kind _ decimal_ops Math_pow_ref (spec_env decimal_ops)
             (VArray (Seq [Seq [Leaf (SNum (of_Z 9))]]))
             (VMatrix (Dense (dense_1x1 two)))
             (VMatrix (Dense (dense_1x1 (of_Z 3))))
             (or_intror (conj eq_refl eq_refl)) eq_refl).
Defined.

(** X8. A root-side SparseMatrix whose density is anything but 1 makes
    the call throw 'Root must be non-zero' for every base a signature
    takes: a matrix, a number, a BigNumber, and also an array, whatever
    matrix it is turned into. *)
Theorem X8_density_guard_all_bases :
  forall (Big : Type) (ops : BigNumberOps Big)
         (Math_pow : number -> number -> number) (env : Collaborators Big)
         (x : value Big) (Y : SparseMatrix Big),
    broadcastable x = true ->
    strict_eq (density env Y) one = false ->
    nthRoot ops Math_pow env [x; VMatrix (Sparse Y)] = Throw NonInvertibleZero.
Proof.
  intros Big ops Math_pow env x Y Hx Hd.
  assert (Hg : density_is_one env Y = false) by exact Hd.
  destruct x as [s | a | [d | s]]; simpl in *.
  - rewrite Hx. simpl. rewrite Hg. reflexivity.
  - destruct (matrix env a); simpl; rewrite Hg; reflexivity.
  - rewrite Hg. reflexivity.
  - rewrite Hg. reflexivity.
Qed.

Lemma X8_witness :
  nthRoot_ref [VArray (Seq [Seq [Leaf (SNum (of_Z 9)); Leaf (SNum (of_Z 4))];
                            Seq [Leaf (SNum one); Leaf (SNum two)]]);
               VMatrix (Sparse sparse_four)]
  = Throw NonInvertibleZero.
Proof.
  apply (X8_density_guard_all_bases _ decimal_ops Math_pow_ref (spec_env decimal_ops));
    reflexivity.
Defined.
